(** * GitSync: a shallow embedding of the synchronisation core

    The development follows the layout of the Python package [app]:
    - [PyStr], [OsPath], [PathLib]: the pieces of the Python runtime the
      package relies on ([str] methods, [os.path], [pathlib.PurePosixPath]),
      for ASCII strings and POSIX paths;
    - [Effects]: the outside world and the monad in which the package runs;
    - [GitOps]: [app/git_ops.py], the gateway to the [git] executable;
    - [Watcher]: [app/local_watcher.py], the debounced local watcher;
    - [WatchLoop]: the loop of [app/local_watcher.py] around the observer;
    - [Poller]: [app/github_poller.py], the remote change detector;
    - [Sim], [Scenario]: a scripted world and the scenarios run in it;
    - [Observe], [Gateway]: the vocabulary of the properties.

    Effects are explicit.  Code that talks to the outside world runs in a
    small monad [M] that threads the state of the world and a clock, may
    raise a Python exception, and writes down every call to the outside
    world in a trace.  Logging is left out.  The loop of the detector takes
    the number of passes it may make; the timers of the watcher are objects
    in a store, and their threads run one at a time, as the lock of the
    handler makes the callbacks do. *)

From Stdlib Require Import ZArith List String Ascii Bool Lia.
Import ListNotations.

Local Open Scope string_scope.
Local Open Scope Z_scope.

(* ================================================================= *)
(** ** Python [str] methods (ASCII fragment) *)

Module PyStr.

(** [needle in hay] *)
Fixpoint contains (needle hay : string) : bool :=
  String.prefix needle hay ||
  match hay with
  | EmptyString => false
  | String _ hay' => contains needle hay'
  end.

(** [s.startswith(p)] *)
Definition startswith (s p : string) : bool := String.prefix p s.

Definition lower_ascii (c : ascii) : ascii :=
  let n := nat_of_ascii c in
  if ((65 <=? n) && (n <=? 90))%nat then ascii_of_nat (n + 32) else c.

(** [s.lower()] *)
Fixpoint lower (s : string) : string :=
  match s with
  | EmptyString => EmptyString
  | String c s' => String (lower_ascii c) (lower s')
  end.

(** The ASCII characters for which [str.isspace] holds. *)
Definition is_space (c : ascii) : bool :=
  let n := nat_of_ascii c in
  ((9 <=? n) && (n <=? 13) || (28 <=? n) && (n <=? 32))%nat.

Fixpoint lstrip (s : string) : string :=
  match s with
  | EmptyString => EmptyString
  | String c s' => if is_space c then lstrip s' else s
  end.

Fixpoint rstrip (s : string) : string :=
  match s with
  | EmptyString => EmptyString
  | String c s' =>
      match rstrip s' with
      | EmptyString => if is_space c then EmptyString else String c EmptyString
      | r => String c r
      end
  end.

(** [s.strip()] *)
Definition strip (s : string) : string := rstrip (lstrip s).

(** Truth value of a string: [bool(s)]. *)
Definition truthy (s : string) : bool :=
  match s with EmptyString => false | _ => true end.

(** Truth value of an optional string ([str | None]). *)
Definition truthy_opt (o : option string) : bool :=
  match o with Some s => truthy s | None => false end.

Fixpoint drop (n : nat) (s : string) : string :=
  match n, s with
  | O, _ => s
  | S _, EmptyString => EmptyString
  | S n', String _ s' => drop n' s'
  end.

(** [s.replace(old, new)] for a non-empty [old]: occurrences are replaced
    from left to right and do not overlap.  [fuel] bounds the number of
    characters still to scan. *)
Fixpoint replace_fuel (fuel : nat) (old new s : string) : string :=
  match fuel with
  | O => s
  | S fuel' =>
      match s with
      | EmptyString => EmptyString
      | String c s' =>
          if String.prefix old s
          then new ++ replace_fuel fuel' old new (drop (String.length old) s)
          else String c (replace_fuel fuel' old new s')
      end
  end.

Definition replace (old new s : string) : string :=
  replace_fuel (String.length s) old new s.

(** [s.split(sep)] for a one-character separator: the pieces between the
    separators, empty pieces included. *)
Fixpoint split (sep : ascii) (s : string) : list string :=
  match s with
  | EmptyString => [EmptyString]
  | String c s' =>
      if Ascii.eqb c sep then EmptyString :: split sep s'
      else match split sep s' with
           | [] => [String c EmptyString]
           | piece :: rest => String c piece :: rest
           end
  end.

(** [s[:n]] *)
Fixpoint take (n : nat) (s : string) : string :=
  match n, s with
  | O, _ => EmptyString
  | S _, EmptyString => EmptyString
  | S n', String c s' => String c (take n' s')
  end.

(** [s] without the prefix [p], when it starts with it. *)
Fixpoint strip_prefix (p s : string) : option string :=
  match p, s with
  | EmptyString, _ => Some s
  | String a p', String b s' =>
      if Ascii.eqb a b then strip_prefix p' s' else None
  | String _ _, EmptyString => None
  end.

(** [x in l] for a list of strings *)
Definition mem (x : string) (l : list string) : bool :=
  existsb (String.eqb x) l.

(** [sep.join(l)] *)
Fixpoint join (sep : string) (l : list string) : string :=
  match l with
  | [] => ""
  | [x] => x
  | x :: l' => x ++ sep ++ join sep l'
  end.

(** Every character of [s] satisfies [p]. *)
Fixpoint all_chars (p : ascii -> bool) (s : string) : bool :=
  match s with
  | EmptyString => true
  | String c s' => p c && all_chars p s'
  end.

(** [s] is empty or begins with a character that fails [p]: a greedy
    [[...]+] that accepts the characters of [p] stops in front of [s]. *)
Definition stops (p : ascii -> bool) (s : string) : bool :=
  match s with
  | EmptyString => true
  | String c _ => negb (p c)
  end.

End PyStr.

(* ================================================================= *)
(** ** [os.path] on POSIX ([posixpath]) *)

Module OsPath.

Definition slash : ascii := "/"%char.

Fixpoint has_slash (s : string) : bool :=
  match s with
  | EmptyString => false
  | String c s' => Ascii.eqb c slash || has_slash s'
  end.

Fixpoint all_slashes (s : string) : bool :=
  match s with
  | EmptyString => true
  | String c s' => Ascii.eqb c slash && all_slashes s'
  end.

(** [s.endswith("/")] *)
Fixpoint ends_with_slash (s : string) : bool :=
  match s with
  | EmptyString => false
  | String c EmptyString => Ascii.eqb c slash
  | String _ s' => ends_with_slash s'
  end.

(** [s.rstrip("/")] *)
Fixpoint rstrip_slashes (s : string) : string :=
  match s with
  | EmptyString => EmptyString
  | String c s' =>
      match rstrip_slashes s' with
      | EmptyString =>
          if Ascii.eqb c slash then EmptyString else String c EmptyString
      | r => String c r
      end
  end.

(** [p[:p.rfind("/") + 1]]: the prefix of [p] up to and including its
    last slash. *)
Fixpoint upto_last_slash (p : string) : string :=
  match p with
  | EmptyString => EmptyString
  | String c p' =>
      if Ascii.eqb c slash || has_slash p'
      then String c (upto_last_slash p')
      else EmptyString
  end.

(** [os.path.dirname(p)] *)
Definition dirname (p : string) : string :=
  let head := upto_last_slash p in
  if PyStr.truthy head && negb (all_slashes head)
  then rstrip_slashes head
  else head.

(** [os.path.join(a, b)] *)
Definition join (a b : string) : string :=
  if PyStr.startswith b "/" then b
  else if negb (PyStr.truthy a) || ends_with_slash a then a ++ b
  else a ++ "/" ++ b.

End OsPath.

(* ================================================================= *)
(** ** [pathlib.PurePosixPath] *)

Module PathLib.

(** [p[:1] == "/"] *)
Definition starts_with_slash (p : string) : bool :=
  match p with
  | String c _ => Ascii.eqb c OsPath.slash
  | EmptyString => false
  end.

(** [posixpath.splitroot(p)]: the root ([""], ["/"] or ["//"]) and the
    rest of the path.  Exactly two leading slashes form a root of their
    own; one, or three and more, collapse to ["/"]. *)
Definition splitroot (p : string) : string * string :=
  if negb (starts_with_slash p) then ("", p)
  else if negb (starts_with_slash (PyStr.drop 1 p))
          || starts_with_slash (PyStr.drop 2 p)
  then ("/", PyStr.drop 1 p)
  else (PyStr.take 2 p, PyStr.drop 2 p).

(** The components kept by the path parser: neither empty nor ["."]. *)
Definition keep_part (x : string) : bool :=
  PyStr.truthy x && negb (String.eqb x ".").

(** [Path(p).parts] *)
Definition parts (p : string) : list string :=
  let '(root, rel) := splitroot p in
  let tail := filter keep_part (PyStr.split OsPath.slash rel) in
  if PyStr.truthy root then root :: tail else tail.

(** [str(Path(p))]: the root and the components kept, joined by
    slashes, and ["."] for a path without either. *)
Definition str_path (p : string) : string :=
  let '(root, rel) := splitroot p in
  let tail := filter keep_part (PyStr.split OsPath.slash rel) in
  let text := root ++ PyStr.join "/" tail in
  if PyStr.truthy text then text else ".".

End PathLib.

(* ================================================================= *)
(** ** Effects: the outside world, exceptions, the clock and the trace *)

Module Effects.

(** The Python exceptions that the package can meet.  All of them derive
    from [Exception]. *)
Inductive exn : Type :=
| ExTimeoutExpired      (* subprocess.TimeoutExpired *)
| ExOSError             (* OSError and its subclasses *)
| ExValueError
| ExRequestException    (* requests.RequestException *)
| ExOther.

Inductive result (A : Type) : Type :=
| Ret (a : A)
| Raise (e : exn).
Arguments Ret {A} a.
Arguments Raise {A} e.

(** What a child process does when nobody stops it: it exits after
    [secs] seconds with a return code and what it wrote on stdout and
    stderr, or it never exits, or it cannot be started at all. *)
Inductive process : Type :=
| Exits (secs : Z) (rc : Z) (out err : string)
| Hangs
| CannotSpawn.

(** [subprocess.CompletedProcess]: return code, stdout, stderr. *)
Record completed : Type := Completed
  { returncode : Z; stdout : string; stderr : string }.

(** What the commit-lookup endpoint answers. *)
Inductive http_reply : Type :=
| HttpJson (sha : option string)  (* success status, JSON object; its ["sha"] field *)
| HttpRequestError                (* transport error, error status, invalid JSON *)
| HttpOtherError.                 (* any other exception while reading the reply *)

Definition environ := list (string * string).

(** The outside world, as an interface. *)
Class System (W : Type) : Type :=
  { sys_spawn : list string -> string -> environ -> W -> process * W;
    sys_makedirs : string -> W -> result unit * W;
    sys_isdir : string -> W -> bool;
    sys_http_get : string -> environ -> W -> http_reply * W }.

(** Calls to the outside world, with what came back. *)
Inductive event : Type :=
| EvRun (argv : list string) (cwd : string) (env : environ) (timeout : Z)
        (r : result completed)
| EvMakedirs (path : string) (r : result unit)
| EvIsdir (path : string) (b : bool)
| EvGet (url : string) (headers : environ) (timeout : Z) (r : http_reply)
| EvSleep (secs : Z)
| EvWait (secs : Z).

Section Monad.
Context {W : Type} `{System W}.

(** [stop_at] is the time at which the stop event is set by the signal
    handler of [main], if it ever is. *)
Record state : Type := State
  { world : W; clock : Z; stop_at : option Z }.

Definition M (A : Type) : Type := state -> result A * state * list event.

Definition ret {A} (a : A) : M A := fun s => (Ret a, s, []).

Definition raise {A} (e : exn) : M A := fun s => (Raise e, s, []).

Definition bind {A B} (m : M A) (k : A -> M B) : M B :=
  fun s =>
    let '(r, s1, t1) := m s in
    match r with
    | Ret a => let '(r2, s2, t2) := k a s1 in (r2, s2, (t1 ++ t2)%list)
    | Raise e => (Raise e, s1, t1)
    end.

(** [try: m except <those accepted by catches>: handler] *)
Definition try_except {A} (m : M A) (catches : exn -> bool) (handler : M A)
  : M A :=
  fun s =>
    let '(r, s1, t1) := m s in
    match r with
    | Ret a => (Ret a, s1, t1)
    | Raise e =>
        if catches e
        then let '(r2, s2, t2) := handler s1 in (r2, s2, (t1 ++ t2)%list)
        else (Raise e, s1, t1)
    end.

Definition result_of {A} (x : result A * state * list event) : result A :=
  fst (fst x).
Definition state_of {A} (x : result A * state * list event) : state :=
  snd (fst x).
Definition trace_of {A} (x : result A * state * list event) : list event :=
  snd x.

Definition tick (secs : Z) (s : state) : state :=
  {| world := world s; clock := clock s + secs; stop_at := stop_at s |}.

Definition with_world (w : W) (s : state) : state :=
  {| world := w; clock := clock s; stop_at := stop_at s |}.

(** [subprocess.run(argv, cwd=cwd, env=..., capture_output=True,
    text=True, timeout=timeout)]: a child that has not finished after
    [timeout] seconds is killed and [TimeoutExpired] is raised. *)
Definition subprocess_run (argv : list string) (cwd : string)
    (env : environ) (timeout : Z) : M completed :=
  fun s =>
    let '(p, w) := sys_spawn argv cwd env (world s) in
    let '(r, secs) :=
      match p with
      | Exits secs rc out err =>
          if timeout <? secs then (Raise ExTimeoutExpired, timeout)
          else (Ret (Completed rc out err), secs)
      | Hangs => (Raise ExTimeoutExpired, timeout)
      | CannotSpawn => (Raise ExOSError, 0)
      end in
    (r, tick secs (with_world w s), [EvRun argv cwd env timeout r]).

(** [os.makedirs(path, exist_ok=True)] *)
Definition os_makedirs (path : string) : M unit :=
  fun s =>
    let '(r, w) := sys_makedirs path (world s) in
    (r, with_world w s, [EvMakedirs path r]).

(** [os.path.isdir(path)] *)
Definition os_path_isdir (path : string) : M bool :=
  fun s =>
    let b := sys_isdir path (world s) in
    (Ret b, s, [EvIsdir path b]).

(** [requests.get(url, headers=headers, timeout=timeout)] *)
Definition requests_get (url : string) (headers : environ) (timeout : Z)
  : M http_reply :=
  fun s =>
    let '(r, w) := sys_http_get url headers (world s) in
    (Ret r, with_world w s, [EvGet url headers timeout r]).

(** [time.sleep(secs)]: cannot be interrupted by the stop event. *)
Definition time_sleep (secs : Z) : M unit :=
  fun s =>
    if secs <? 0 then (Raise ExValueError, s, [])
    else (Ret tt, tick secs s, [EvSleep secs]).

(** [stop_event.is_set()] *)
Definition is_set_at (s : state) : bool :=
  match stop_at s with
  | Some t => t <=? clock s
  | None => false
  end.

Definition stop_is_set : M bool := fun s => (Ret (is_set_at s), s, []).

(** [stop_event.wait(secs)]: returns as soon as the event is set, and
    after [secs] seconds at the latest. *)
Definition stop_wait (secs : Z) : M bool :=
  fun s =>
    let deadline := clock s + Z.max 0 secs in
    let wake :=
      match stop_at s with
      | Some t => Z.min deadline (Z.max (clock s) t)
      | None => deadline
      end in
    let s' := {| world := world s; clock := wake; stop_at := stop_at s |} in
    (Ret (is_set_at s'), s', [EvWait secs]).

(** A property of events holds all along a computation. *)
Definition always {A} (P : event -> Prop) (m : M A) : Prop :=
  forall s, Forall P (trace_of (m s)).

End Monad.

Arguments state W : clear implicits.
Arguments M W A : clear implicits.

Declare Scope py_scope.
Delimit Scope py_scope with py.
Notation "x <- c1 ;; c2" := (bind c1 (fun x => c2))
  (at level 61, c1 at next level, right associativity) : py_scope.
Notation "c1 ;; c2" := (bind c1 (fun _ => c2))
  (at level 61, right associativity) : py_scope.

End Effects.

(* ================================================================= *)
(** ** [app/git_ops.py] *)

Module GitOps.
Import Effects.
Local Open Scope py_scope.

(** [if token and "github.com" in url:
      url = url.replace("https://", f"https://{token}@")] *)
Definition embed_token (url : string) (token : option string) : string :=
  match token with
  | Some tok =>
      if PyStr.truthy tok && PyStr.contains "github.com" url
      then PyStr.replace "https://" ("https://" ++ tok ++ "@") url
      else url
  | None => url
  end.

(** [_repo_url_with_token(repo, token)] *)
Definition _repo_url_with_token (repo : string) (token : option string)
  : string :=
  let repo := PyStr.strip repo in
  if PyStr.startswith repo "https://" then embed_token repo token
  else if PyStr.startswith repo "git@" then repo
  else embed_token ("https://github.com/" ++ repo ++ ".git") token.

(** The timeout handed to every [subprocess.run]. *)
Definition git_timeout : Z := 120.

Section WithSystem.
Context {W : Type} `{System W}.

(** [_run_git(cwd, args, env)]: the triple (returncode, stdout, stderr).
    [env] holds the overrides put on top of [os.environ]. *)
Definition _run_git (cwd : string) (args : list string) (env : environ)
  : M W completed :=
  try_except
    (r <- subprocess_run ("git" :: args) cwd env git_timeout ;;
     ret (Completed (returncode r) (stdout r) (stderr r)))
    (fun e => match e with ExTimeoutExpired => true | _ => false end)
    (ret (Completed (-1) "" "Timeout")).

(** [clone(repo, local_path, token, branch)] *)
Definition clone (repo local_path : string) (token : option string)
    (branch : string) : M W bool :=
  let url := _repo_url_with_token repo token in
  let parent := OsPath.dirname local_path in
  os_makedirs (if PyStr.truthy parent then parent else ".") ;;
  r <- _run_git "." ["clone"; "--depth"; "1"; "-b"; branch; url; local_path] [] ;;
  if negb (returncode r =? 0) then
    if PyStr.contains "not found" (PyStr.lower (stderr r))
       || PyStr.contains "couldn't find" (PyStr.lower (stderr r))
    then
      r2 <- _run_git "." ["clone"; "--depth"; "1"; url; local_path] [] ;;
      if returncode r2 =? 0 then ret true else ret false
    else ret false
  else ret true.

(** [_set_remote_url(local_path, repo, token)] *)
Definition _set_remote_url (local_path repo : string)
    (token : option string) : M W unit :=
  let url := _repo_url_with_token repo token in
  _run_git local_path ["remote"; "set-url"; "origin"; url] [] ;;
  ret tt.

(** The guard [if repo and token: _set_remote_url(...)] shared by
    [pull], [push] and [pull_before_push]. *)
Definition refresh_remote (local_path : string) (repo token : option string)
  : M W unit :=
  match repo with
  | Some r =>
      if PyStr.truthy r && PyStr.truthy_opt token
      then _set_remote_url local_path r token
      else ret tt
  | None => ret tt
  end.

(** [pull(local_path, token, repo)] *)
Definition pull (local_path : string) (token repo : option string)
  : M W bool :=
  refresh_remote local_path repo token ;;
  r <- _run_git local_path ["pull"] [] ;;
  if negb (returncode r =? 0) then ret false else ret true.

(** [add_all(local_path)] *)
Definition add_all (local_path : string) : M W bool :=
  r <- _run_git local_path ["add"; "-A"] [] ;;
  if negb (returncode r =? 0) then ret false else ret true.

(** [has_changes(local_path)] *)
Definition has_changes (local_path : string) : M W bool :=
  r <- _run_git local_path ["status"; "--porcelain"] [] ;;
  ret ((returncode r =? 0) && PyStr.truthy (PyStr.strip (stdout r))).

(** [commit(local_path, message, user_name, user_email)] *)
Definition commit (local_path message user_name user_email : string)
  : M W bool :=
  let env := [("GIT_AUTHOR_NAME", user_name); ("GIT_AUTHOR_EMAIL", user_email)] in
  r <- _run_git local_path ["commit"; "-m"; message] env ;;
  if negb (returncode r =? 0) then
    if PyStr.contains "nothing to commit" (stderr r) then ret true
    else ret false
  else ret true.

(** [push(local_path, token, branch, repo)] *)
Definition push (local_path : string) (token branch repo : option string)
  : M W bool :=
  refresh_remote local_path repo token ;;
  let args :=
    match branch with
    | Some b => if PyStr.truthy b then ["push"; "origin"; b] else ["push"]
    | None => ["push"]
    end in
  r <- _run_git local_path args [] ;;
  if negb (returncode r =? 0) then ret false else ret true.

(** [is_git_repo(path)] *)
Definition is_git_repo (path : string) : M W bool :=
  os_path_isdir (OsPath.join path ".git").

(** [get_default_branch(local_path)] *)
Definition get_default_branch (local_path : string) : M W string :=
  r <- _run_git local_path ["rev-parse"; "--abbrev-ref"; "HEAD"] [] ;;
  if (returncode r =? 0) && PyStr.truthy (PyStr.strip (stdout r))
  then ret (PyStr.strip (stdout r))
  else ret "main".

(** [pull_before_push(local_path, repo, token)] *)
Definition pull_before_push (local_path : string) (repo token : option string)
  : M W bool :=
  refresh_remote local_path repo token ;;
  r <- _run_git local_path ["pull"; "--rebase"] [] ;;
  if negb (returncode r =? 0) then ret false else ret true.

End WithSystem.

End GitOps.

(* ================================================================= *)
(** ** [app/local_watcher.py] *)

Module Watcher.
Import Effects.
Local Open Scope py_scope.

(** The constructor arguments of [DebouncedCommitHandler]. *)
Record config : Type := Config
  { local_path : string;
    debounce_seconds : Z;
    user_name : string;
    user_email : string;
    token : option string;
    repo : option string;
    branch : option string;
    pull_before_push : bool }.

Section Sync.
Context {W : Type} `{System W}.

(** [DebouncedCommitHandler._do_commit_and_push(local_path)] *)
Definition _do_commit_and_push (self : config) (path : string) : M W unit :=
  is_repo <- GitOps.is_git_repo path ;;
  if negb is_repo then ret tt else
  changed <- GitOps.has_changes path ;;
  if negb changed then ret tt else
  pulled <-
    (if pull_before_push self
     then GitOps.pull_before_push path (repo self) (token self)
     else ret true) ;;
  if negb pulled then ret tt else
  staged <- GitOps.add_all path ;;
  if negb staged then ret tt else
  committed <- GitOps.commit path "GitSync: auto sync"
                 (user_name self) (user_email self) ;;
  if negb committed then ret tt else
  GitOps.push path (token self) (branch self) (repo self) ;;
  ret tt.

End Sync.

(** *** The debounce timer

    A [threading.Timer] is an object of its own: the handler keeps a
    reference to the latest one in [self._timer], and a timer that was
    cancelled or has run stays in the store with its [finished] flag set. *)

Record timer : Type := Timer
  { started : Z; interval : Z; finished : bool }.

(** The time at which the thread of the timer wakes up:
    [finished.wait(interval)] returns at once for a negative interval. *)
Definition due_time (tm : timer) : Z := started tm + Z.max 0 (interval tm).

Record handler : Type := Handler
  { _timer : option nat;      (* self._timer: an index in [timers] *)
    timers : list timer;      (* every Timer object created so far *)
    fired : list Z }.         (* the times at which a sync sequence started *)

Definition new_handler : handler :=
  {| _timer := None; timers := []; fired := [] |}.

Fixpoint set_finished (i : nat) (l : list timer) : list timer :=
  match l, i with
  | [], _ => []
  | tm :: l', O => Timer (started tm) (interval tm) true :: l'
  | tm :: l', S i' => tm :: set_finished i' l'
  end.

(** [Timer.cancel()] *)
Definition cancel (i : nat) (l : list timer) : list timer := set_finished i l.

(** [DebouncedCommitHandler._reset_timer()], called at time [now]. *)
Definition _reset_timer (self : config) (now : Z) (h : handler) : handler :=
  let ts :=
    match _timer h with
    | Some i => cancel i (timers h)
    | None => timers h
    end in
  {| _timer := Some (List.length ts);
     timers := (ts ++ [Timer now (debounce_seconds self) false])%list;
     fired := fired h |}.

(** [DebouncedCommitHandler._on_timer()], called at time [now]: forget the
    timer, then start the sync sequence. *)
Definition _on_timer (now : Z) (h : handler) : handler :=
  {| _timer := None; timers := timers h; fired := (fired h ++ [now])%list |}.

(** [Timer.run()] once the wait of timer [i] is over: the callback runs
    unless the timer was cancelled meanwhile. *)
Definition timer_run (i : nat) (h : handler) : handler :=
  match nth_error (timers h) i with
  | Some tm =>
      if finished tm then h
      else
        let h' := _on_timer (due_time tm) h in
        {| _timer := _timer h';
           timers := set_finished i (timers h');
           fired := fired h' |}
  | None => h
  end.

Definition is_due (now : Z) (h : handler) (i : nat) : bool :=
  match nth_error (timers h) i with
  | Some tm => due_time tm <=? now
  | None => false
  end.

(** Let every timer that is due at [now] run, oldest first. *)
Definition expire (now : Z) (h : handler) : handler :=
  fold_left (fun h i => if is_due now h i then timer_run i h else h)
            (seq 0 (List.length (timers h))) h.

(** Let every pending timer run: no further event arrives. *)
Definition quiesce (h : handler) : handler :=
  fold_left (fun h i => timer_run i h) (seq 0 (List.length (timers h))) h.

(** *** Filesystem events *)

Inductive event_type : Type :=
| Moved | Deleted | Created | Modified | Closed | Opened.

(** [watchdog.events.FileSystemEvent]; [src_path] is [""] when absent. *)
Record fs_event : Type := FsEvent
  { kind : event_type; src_path : string; is_directory : bool }.

(** The path lies in the metadata directory [.git] of the directory
    [watched]: it is [watched/.git] itself or goes on below it. *)
Definition under_git_dir (watched path : string) : bool :=
  match PyStr.strip_prefix (watched ++ "/.git") path with
  | Some rest => negb (PyStr.truthy rest) || PyStr.startswith rest "/"
  | None => false
  end.

(** [DebouncedCommitHandler._on_event(event)] *)
Definition _on_event (self : config) (now : Z) (ev : fs_event) (h : handler)
  : handler :=
  let src := if PyStr.truthy (src_path ev) then src_path ev else "" in
  if PyStr.mem ".git" (PathLib.parts src) then h
  else _reset_timer self now h.

Definition on_modified (self : config) (now : Z) (ev : fs_event) (h : handler)
  : handler :=
  if is_directory ev then h else _on_event self now ev h.

Definition on_created := _on_event.
Definition on_deleted := _on_event.
Definition on_moved := _on_event.

(** [FileSystemEventHandler.dispatch(event)]: the method named after the
    type of the event; the handler overrides four of them and inherits
    the others, which do nothing. *)
Definition dispatch (self : config) (now : Z) (ev : fs_event) (h : handler)
  : handler :=
  match kind ev with
  | Moved => on_moved self now ev h
  | Deleted => on_deleted self now ev h
  | Created => on_created self now ev h
  | Modified => on_modified self now ev h
  | Closed | Opened => h
  end.

(** The watcher fed with timestamped events, in order of arrival: timers
    that are due run before the next event is delivered. *)
Fixpoint deliver (self : config) (evs : list (Z * fs_event)) (h : handler)
  : handler :=
  match evs with
  | [] => h
  | (now, ev) :: evs' => deliver self evs' (dispatch self now ev (expire now h))
  end.

(** The times of the sync sequences caused by a finite stream of events. *)
Definition syncs (self : config) (evs : list (Z * fs_event)) : list Z :=
  fired (quiesce (deliver self evs new_handler)).

(** Every timer of the list was cancelled or has run. *)
Definition all_finished (l : list timer) : Prop :=
  Forall (fun tm => finished tm = true) l.

(** The handler with one timer pending, started at [at] for [secs]
    seconds, all the timers [old] before it being finished. *)
Definition armed (old : list timer) (at_ secs : Z) : handler :=
  {| _timer := Some (List.length old);
     timers := (old ++ [Timer at_ secs false])%list;
     fired := [] |}.

(** *** Bursts of events *)

(** The events that the handler does not discard: a creation, a deletion,
    a move, or the modification of a file, outside of any [.git]. *)
Definition qualifies (ev : fs_event) : bool :=
  negb (PyStr.mem ".git" (PathLib.parts (src_path ev))) &&
  match kind ev with
  | Moved | Deleted | Created => true
  | Modified => negb (is_directory ev)
  | Closed | Opened => false
  end.

(** Every event of [evs] qualifies and arrives less than [window] after
    the event before it, the first of them after an event at [prev]. *)
Fixpoint chained (window prev : Z) (evs : list (Z * fs_event)) : bool :=
  match evs with
  | [] => true
  | (now, ev) :: evs' =>
      qualifies ev && (prev <=? now) && (now <? prev + window)
      && chained window now evs'
  end.

(** A burst: at least one event, all of them qualifying, each less than
    [window] after the one before. *)
Definition is_burst (window : Z) (evs : list (Z * fs_event)) : bool :=
  match evs with
  | [] => false
  | (now, ev) :: evs' => qualifies ev && chained window now evs'
  end.

(** The time of the last event of [evs], or [prev] when there is none. *)
Fixpoint last_time (prev : Z) (evs : list (Z * fs_event)) : Z :=
  match evs with
  | [] => prev
  | (now, _) :: evs' => last_time now evs'
  end.

(** *** The handler as a single deadline *)

(** What the timers amount to: at most one qualifying event is waiting
    for its window to pass.  [pending] is the time of that event, if any;
    an event that arrives when the window has passed finds the sync
    started; a qualifying event becomes the one that waits; in the end
    the event that waits gets its sync. *)
Fixpoint settle (window : Z) (pending : option Z) (evs : list (Z * fs_event))
  : list Z :=
  match evs with
  | [] =>
      match pending with
      | Some since => [since + Z.max 0 window]
      | None => []
      end
  | (now, ev) :: evs' =>
      match pending with
      | Some since =>
          if since + Z.max 0 window <=? now
          then since + Z.max 0 window
                 :: settle window (if qualifies ev then Some now else None) evs'
          else settle window (if qualifies ev then Some now else Some since) evs'
      | None => settle window (if qualifies ev then Some now else None) evs'
      end
  end.

(** The states that the handler goes through: the timers [old] are
    finished, [log] holds the syncs started so far, and either no timer
    is pending and [self._timer] is [None], or the timer started at the
    time [pending] is, and [self._timer] refers to it. *)
Definition resting (self : config) (old : list timer) (pending : option Z)
    (log : list Z) : handler :=
  match pending with
  | None => {| _timer := None; timers := old; fired := log |}
  | Some since =>
      {| _timer := Some (List.length old);
         timers := (old ++ [Timer since (debounce_seconds self) false])%list;
         fired := log |}
  end.

(** The number of events that qualify. *)
Definition qualifying (evs : list (Z * fs_event)) : nat :=
  List.length (filter (fun e => qualifies (snd e)) evs).


End Watcher.

(* ================================================================= *)
(** ** [app/local_watcher.py]: [watch_loop]

    The loop of the watcher task waits for the mirrored directory, hands
    the handler to an observer and waits for the stop event.  Here the
    file system is seen through [exists_at], which tells for each time
    whether [path.exists()] holds (the directory is made by the detector,
    in another task), the stop event is set at [stop_at], if ever, and of
    the observer only the times at which it is started and stopped are
    kept.  Both loops take the number of turns they may make. *)

Module WatchLoop.

Section World.
Variable exists_at : Z -> bool.
Variable stop_at : option Z.

(** [stop_event.is_set()] at the time [now] *)
Definition is_set (now : Z) : bool :=
  match stop_at with
  | Some t => t <=? now
  | None => false
  end.

(** The time at which [stop_event.wait(secs)], called at [now], returns. *)
Definition wait (secs now : Z) : Z :=
  match stop_at with
  | Some t => Z.min (now + Z.max 0 secs) (Z.max now t)
  | None => now + Z.max 0 secs
  end.

(** [while not path.exists() and not stop_event.is_set():
      stop_event.wait(5)]; the result is the time at which the loop is
    left. *)
Fixpoint await_path (fuel : nat) (now : Z) : option Z :=
  match fuel with
  | O => None
  | S fuel' =>
      if negb (exists_at now) && negb (is_set now)
      then await_path fuel' (wait 5 now)
      else Some now
  end.

(** [while not stop_event.is_set(): stop_event.wait(1.0)] *)
Fixpoint await_stop (fuel : nat) (now : Z) : option Z :=
  match fuel with
  | O => None
  | S fuel' =>
      if negb (is_set now) then await_stop fuel' (wait 1 now) else Some now
  end.

(** How [watch_loop] ends: it returned without an observer, or it had an
    observer watch [watched] from [started] to [stopped]. *)
Inductive outcome : Type :=
| NotWatched (returned : Z)
| Watched (watched : string) (started stopped : Z).

(** [watch_loop(local_path, ..., stop_event)], called at the time [now];
    [None] when the turns granted do not suffice. *)
Definition watch_loop (fuel : nat) (local_path : string) (now : Z)
  : option outcome :=
  match await_path fuel now with
  | None => None
  | Some t =>
      if negb (exists_at t) then Some (NotWatched t)
      else
        match await_stop fuel t with
        | None => None
        | Some t' => Some (Watched (PathLib.str_path local_path) t t')
        end
  end.

End World.

End WatchLoop.

(* ================================================================= *)
(** ** [app/github_poller.py] *)

Module Poller.
Import Effects.
Local Open Scope py_scope.

Definition GITHUB_API : string := "https://api.github.com".

(** The longest prefix of [s] whose characters satisfy [p], and the rest:
    what a greedy character class [[...]*] consumes. *)
Fixpoint span (p : ascii -> bool) (s : string) : string * string :=
  match s with
  | EmptyString => (EmptyString, EmptyString)
  | String c s' =>
      if p c then let '(a, b) := span p s' in (String c a, b)
      else (EmptyString, s)
  end.

Definition not_slash (c : ascii) : bool := negb (Ascii.eqb c "/").
Definition not_dot (c : ascii) : bool := negb (Ascii.eqb c ".").

(** The tail [([^/]+)/(<class>+)] shared by both patterns of
    [_normalize_repo], tried at the beginning of [s]; the answer is the
    pair of groups.  Both groups are greedy and neither can give a
    character back: the first stops in front of the first slash. *)
Definition match_groups (second : ascii -> bool) (s : string)
  : option (string * string) :=
  let '(g1, rest) := span not_slash s in
  match g1, rest with
  | String _ _, String "/" rest' =>
      let '(g2, _) := span second rest' in
      match g2 with
      | String _ _ => Some (g1, g2)
      | EmptyString => None
      end
  | _, _ => None
  end.

(** [re.match(r"https?://github\.com/([^/]+)/([^/.]+)", s)] *)
Definition match_https (s : string) : option (string * string) :=
  match PyStr.strip_prefix "http" s with
  | Some s1 =>
      let s2 := match s1 with String "s" r => r | _ => s1 end in
      match PyStr.strip_prefix "://github.com/" s2 with
      | Some s3 => match_groups (fun c => not_slash c && not_dot c) s3
      | None => None
      end
  | None => None
  end.

(** [re.search(r"github\.com:([^/]+)/([^.]+)", s)]: the leftmost match. *)
Fixpoint search_ssh (s : string) : option (string * string) :=
  let here :=
    match PyStr.strip_prefix "github.com:" s with
    | Some s1 => match_groups not_dot s1
    | None => None
    end in
  match here with
  | Some g => Some g
  | None =>
      match s with
      | EmptyString => None
      | String _ s' => search_ssh s'
      end
  end.

(** [_normalize_repo(repo)] *)
Definition _normalize_repo (repo : string) : string :=
  let repo := PyStr.strip repo in
  match match_https repo with
  | Some (g1, g2) => g1 ++ "/" ++ g2
  | None =>
      if PyStr.startswith repo "git@" then
        match search_ssh repo with
        | Some (g1, g2) => g1 ++ "/" ++ g2
        | None => repo
        end
      else repo
  end.

(** [s.split("/", 1)] for an [s] that holds a slash. *)
Definition split_once (s : string) : string * string :=
  let '(a, rest) := span not_slash s in
  (a, match rest with String _ r => r | EmptyString => EmptyString end).

(** Where one pass through the body of the loop ends: at the [continue]
    of the failed query, or at the end of the [try] statement. *)
Inductive flow : Type := Continue | Fallthrough.

(** How a bounded run of the loop ends: the repository name was refused,
    the stop event was seen set, or the iterations granted were used up. *)
Inductive ending : Type :=
| InvalidRepo
| Stopped (last_sha : option string)
| Running (last_sha : option string).

Definition catch_all (e : exn) : bool := true.

Section WithSystem.
Context {W : Type} `{System W}.

(** The URL and the headers of the query. *)
Definition commits_url (owner repo_name branch : string) : string :=
  GITHUB_API ++ "/repos/" ++ owner ++ "/" ++ repo_name ++ "/commits/" ++ branch.

Definition query_headers (token : option string) : environ :=
  let accept := ("Accept", "application/vnd.github.v3+json") in
  match token with
  | Some tok =>
      if PyStr.truthy tok
      then [accept; ("Authorization", "Bearer " ++ tok)]
      else [accept]
  | None => [accept]
  end.

(** [fetch_latest_sha(owner, repo_name, branch, token)] *)
Definition fetch_latest_sha (owner repo_name branch : string)
    (token : option string) : M W (option string) :=
  try_except
    (r <- requests_get (commits_url owner repo_name branch)
            (query_headers token) 10 ;;
     match r with
     | HttpJson sha => ret sha
     | HttpRequestError => raise ExRequestException
     | HttpOtherError => raise ExOther
     end)
    (fun e => match e with ExRequestException => true | _ => false end)
    (ret None).

(** [last_sha = sha; if on_pull: on_pull()].  The assignment survives an
    exception raised by the callback, which the [except] clause of the
    loop swallows. *)
Definition adopt (sha : string) (on_pull : option (M W unit))
  : M W (flow * option string) :=
  match on_pull with
  | Some callback =>
      try_except (callback ;; ret (Fallthrough, Some sha))
                 catch_all (ret (Fallthrough, Some sha))
  | None => ret (Fallthrough, Some sha)
  end.

(** The [try] statement inside the loop: one pass, given the current
    [last_sha]; the result is the way the pass ends and the new
    [last_sha]. *)
Definition poll_once (repo local_path : string) (token : option string)
    (branch : string) (interval_seconds : Z) (on_pull : option (M W unit))
    (owner repo_name : string) (last_sha : option string)
  : M W (flow * option string) :=
  try_except
    (sha <- fetch_latest_sha owner repo_name branch token ;;
     match sha with
     | None => time_sleep interval_seconds ;; ret (Continue, last_sha)
     | Some sha =>
         is_repo <- GitOps.is_git_repo local_path ;;
         if negb is_repo then
           cloned <- GitOps.clone repo local_path token branch ;;
           if cloned then adopt sha on_pull
           else ret (Fallthrough, last_sha)
         else
           match last_sha with
           | Some last =>
               if negb (String.eqb sha last) then
                 pulled <- GitOps.pull local_path token (Some repo) ;;
                 if pulled then adopt sha on_pull
                 else ret (Fallthrough, last_sha)
               else ret (Fallthrough, last_sha)
           | None => ret (Fallthrough, Some sha)
           end
     end)
    catch_all
    (ret (Fallthrough, last_sha)).

(** [while not stop_event.is_set(): ...], for at most [fuel] passes. *)
Fixpoint poll_while (fuel : nat) (repo local_path : string)
    (token : option string) (branch : string) (interval_seconds : Z)
    (on_pull : option (M W unit)) (owner repo_name : string)
    (last_sha : option string) : M W ending :=
  match fuel with
  | O => ret (Running last_sha)
  | S fuel' =>
      stop <- stop_is_set ;;
      if stop then ret (Stopped last_sha) else
      pass <- poll_once repo local_path token branch interval_seconds
                on_pull owner repo_name last_sha ;;
      let '(how, last_sha') := pass in
      match how with
      | Continue =>
          poll_while fuel' repo local_path token branch interval_seconds
            on_pull owner repo_name last_sha'
      | Fallthrough =>
          stop_wait interval_seconds ;;
          poll_while fuel' repo local_path token branch interval_seconds
            on_pull owner repo_name last_sha'
      end
  end.

(** [poll_loop(repo, local_path, token, branch, interval_seconds,
    stop_event, on_pull)] *)
Definition poll_loop (fuel : nat) (repo local_path : string)
    (token : option string) (branch : string) (interval_seconds : Z)
    (on_pull : option (M W unit)) : M W ending :=
  let normalized := _normalize_repo repo in
  if negb (OsPath.has_slash normalized) then ret InvalidRepo
  else
    let '(owner, repo_name) := split_once normalized in
    poll_while fuel repo local_path token branch interval_seconds
      on_pull owner repo_name None.

End WithSystem.

(** The characters of the class [[^/.]]. *)
Definition name_char (c : ascii) : bool := not_slash c && not_dot c.

End Poller.

(* ================================================================= *)
(** ** A scripted world for scenarios

    A world in which the script of the scenario decides what [git] and the
    remote do: [git] answers by its command line, the remote hands out the
    replies of [remote] one query after the other, and the directories are
    those of [dirs].  A [git clone] that exits with 0 leaves a working copy
    at its destination, its last argument. *)

Module Sim.
Import Effects.

Record sim : Type := Sim
  { dirs : list string;
    remote : list http_reply;
    git : list string -> process }.

Definition is_clone (argv : list string) : bool :=
  match argv with
  | _ :: cmd :: _ => String.eqb cmd "clone"
  | _ => false
  end.

Definition spawn (argv : list string) (cwd : string) (env : environ)
    (w : sim) : process * sim :=
  let p := git w argv in
  match p with
  | Exits _ 0 _ _ =>
      if is_clone argv
      then (p, {| dirs := OsPath.join (last argv "") ".git" :: dirs w;
                  remote := remote w; git := git w |})
      else (p, w)
  | _ => (p, w)
  end.

Definition makedirs (path : string) (w : sim) : result unit * sim :=
  (Ret tt, {| dirs := path :: dirs w; remote := remote w; git := git w |}).

Definition isdir (path : string) (w : sim) : bool := PyStr.mem path (dirs w).

Definition http_get (url : string) (headers : environ) (w : sim)
  : http_reply * sim :=
  match remote w with
  | [] => (HttpRequestError, w)
  | r :: rest => (r, {| dirs := dirs w; remote := rest; git := git w |})
  end.

#[global] Instance sim_system : System sim :=
  {| sys_spawn := spawn;
     sys_makedirs := makedirs;
     sys_isdir := isdir;
     sys_http_get := http_get |}.

(** Every [git] command succeeds at once and prints nothing. *)
Definition git_ok (argv : list string) : process := Exits 0 0 "" "".

(** The state at time 0, with the stop event set at [stop], if ever. *)
Definition start (w : sim) (stop : option Z) : state sim :=
  {| world := w; clock := 0; stop_at := stop |}.

(** The state of a world in which every [git] command succeeds, the stop
    event is never set, the remote is about to give [replies], and the
    working copy at [local_path] is there or not, as [cloned] tells. *)
Definition follows (local_path : string) (replies : list http_reply)
    (cloned : bool) (s : state sim) : Prop :=
  stop_at s = None /\
  git (world s) = git_ok /\
  remote (world s) = replies /\
  isdir (OsPath.join local_path ".git") (world s) = cloned.

End Sim.

(* ================================================================= *)
(** ** Reading traces *)

Module Observe.
Import Effects.

(** The [git] subcommand of a call, e.g. ["clone"] for [git clone ...]. *)
Definition subcommand (ev : event) : option string :=
  match ev with
  | EvRun (_ :: cmd :: _) _ _ _ _ => Some cmd
  | _ => None
  end.

Definition runs (cmd : string) (ev : event) : bool :=
  match subcommand ev with
  | Some c => String.eqb c cmd
  | None => false
  end.

(** The calls that stage, commit or push. *)
Definition writes_history (ev : event) : bool :=
  runs "add" ev || runs "commit" ev || runs "push" ev.

(** A [git pull --rebase] that did not succeed: it ended with a return
    code other than 0, ran into the timeout, or could not be started. *)
Definition failed_pull_rebase (ev : event) : bool :=
  match ev with
  | EvRun [_; "pull"; "--rebase"] _ _ _ r =>
      match r with
      | Ret c => negb (returncode c =? 0)
      | Raise _ => true
      end
  | _ => false
  end.

(** A child process that is still running when the timeout of the
    gateway is over. *)
Definition overruns (p : process) : bool :=
  match p with
  | Exits secs _ _ _ => GitOps.git_timeout <? secs
  | Hangs => true
  | CannotSpawn => false
  end.

(** The triple that [_run_git] returns for a child killed at the timeout. *)
Definition timed_out : completed := Completed (-1) "" "Timeout".

(** What a child process comes to once [subprocess.run] has applied the
    timeout of the gateway and [_run_git] its [except] clause. *)
Definition verdict (p : process) : result completed :=
  match p with
  | Exits secs rc out err =>
      if GitOps.git_timeout <? secs then Ret timed_out
      else Ret (Completed rc out err)
  | Hangs => Ret timed_out
  | CannotSpawn => Raise ExOSError
  end.

(** The diagnostic that [clone] takes for a branch missing upstream. *)
Definition branch_not_found (err : string) : bool :=
  PyStr.contains "not found" (PyStr.lower err)
  || PyStr.contains "couldn't find" (PyStr.lower err).

(** The directory that [clone] asks [os.makedirs] for. *)
Definition parent_dir (local_path : string) : string :=
  if PyStr.truthy (OsPath.dirname local_path)
  then OsPath.dirname local_path else ".".

(** The event is no call that stages, commits or pushes. *)
Definition quiet (ev : event) : Prop := writes_history ev = false.

(** The event is no failed [git pull --rebase]. *)
Definition no_failed_rebase (ev : event) : Prop := failed_pull_rebase ev = false.

(** The timeout of a [subprocess.run], when the event is one. *)
Definition run_timeout (ev : event) : option Z :=
  match ev with
  | EvRun _ _ _ t _ => Some t
  | _ => None
  end.

(** The event is no [subprocess.run] with a timeout other than that of
    the gateway. *)
Definition within_timeout (ev : event) : Prop :=
  forall t, run_timeout ev = Some t -> t = GitOps.git_timeout.

(** What the pass keeps as last-seen after a call to the gateway: the
    revision fetched when the call answered success, the old one
    otherwise. *)
Definition seen_after (r : result bool) (sha : string) (last : option string)
  : option string :=
  match r with
  | Ret true => Some sha
  | _ => last
  end.

(** What the detector and the gateway did, in short. *)
Inductive action : Type :=
| Saw (reply : http_reply)   (* a query of the remote and its answer *)
| Cloned
| Pulled.

Definition action_of (ev : event) : list action :=
  match ev with
  | EvGet _ _ _ r => [Saw r]
  | EvRun (_ :: "clone" :: _) _ _ _ _ => [Cloned]
  | EvRun (_ :: "pull" :: _) _ _ _ _ => [Pulled]
  | _ => []
  end.

Definition actions (tr : list event) : list action := flat_map action_of tr.

(** A [git clone] that ended with return code 0. *)
Definition clone_ok (ev : event) : bool :=
  match ev with
  | EvRun (_ :: "clone" :: _) _ _ _ (Ret c) => returncode c =? 0
  | _ => false
  end.

(** A [git clone] without [-b]: the fallback of [clone], with its six
    arguments ([git clone --depth 1 <url> <path>]). *)
Definition default_clone (ev : event) : bool :=
  match ev with
  | EvRun argv _ _ _ _ =>
      (List.length argv =? 6)%nat && String.eqb (nth 1 argv "") "clone"
  | _ => false
  end.

(** A [git clone -b] (eight arguments) that failed with the diagnostic of
    a missing branch. *)
Definition named_clone_missed (ev : event) : bool :=
  match ev with
  | EvRun argv _ _ _ (Ret c) =>
      (List.length argv =? 8)%nat && String.eqb (nth 4 argv "") "-b"
      && negb (returncode c =? 0) && branch_not_found (stderr c)
  | _ => false
  end.

Fixpoint argv_eqb (a b : list string) : bool :=
  match a, b with
  | [], [] => true
  | x :: a', y :: b' => String.eqb x y && argv_eqb a' b'
  | _, _ => false
  end.

(** The command [argv], run to the end with return code 0. *)
Definition ran_ok (argv : list string) (ev : event) : bool :=
  match ev with
  | EvRun argv' _ _ _ (Ret c) => argv_eqb argv' argv && (returncode c =? 0)
  | _ => false
  end.

(** Whether [pull], [push] and [pull_before_push] refresh the URL of the
    remote first: [if repo and token]. *)
Definition refreshes (repo token : option string) : bool :=
  match repo with
  | Some r => PyStr.truthy r && PyStr.truthy_opt token
  | None => false
  end.

(** The command line of the refresh. *)
Definition refresh_argv (repo token : option string) : list string :=
  match repo with
  | Some r =>
      ["git"; "remote"; "set-url"; "origin"; GitOps._repo_url_with_token r token]
  | None => []
  end.

(** The command line of [push]. *)
Definition push_argv (branch : option string) : list string :=
  match branch with
  | Some b => if PyStr.truthy b then ["git"; "push"; "origin"; b] else ["git"; "push"]
  | None => ["git"; "push"]
  end.

(** How an operation that talks to the remote behaves, [argv] being its
    own command: it answers success exactly when that command ended with
    return code 0; it runs the refresh first when there is one to run,
    and the command alone otherwise. *)
Definition talks_to_remote {W : Type} `{System W}
    (local_path : string) (repo token : option string) (argv : list string)
    (op : M W bool) : Prop :=
  forall s,
    (forall b, result_of (op s) = Ret b ->
               (b = true <-> Exists (fun ev => ran_ok argv ev = true)
                                    (trace_of (op s)))) /\
    (if refreshes repo token
     then exists r rest,
         trace_of (op s)
         = EvRun (refresh_argv repo token) local_path [] GitOps.git_timeout r
             :: rest
     else exists r,
         trace_of (op s) = [EvRun argv local_path [] GitOps.git_timeout r]).

(** The command [argv], run to the end with return code 0 and with
    [text], surrounding whitespace apart, on its stdout. *)
Definition printed (argv : list string) (text : string) (ev : event) : bool :=
  match ev with
  | EvRun argv' _ _ _ (Ret c) =>
      argv_eqb argv' argv && (returncode c =? 0)
      && String.eqb (PyStr.strip (stdout c)) text
  | _ => false
  end.

(** A [git status --porcelain] that ended with return code 0 and printed
    more than whitespace. *)
Definition reported_changes (ev : event) : bool :=
  match ev with
  | EvRun argv _ _ _ (Ret c) =>
      argv_eqb argv ["git"; "status"; "--porcelain"] && (returncode c =? 0)
      && PyStr.truthy (PyStr.strip (stdout c))
  | _ => false
  end.

(** A [git commit] that [commit] takes for done: it ended with return
    code 0, or with the words "nothing to commit" on stderr. *)
Definition commit_accepted (ev : event) : bool :=
  runs "commit" ev &&
  match ev with
  | EvRun _ _ _ _ (Ret c) =>
      (returncode c =? 0) || PyStr.contains "nothing to commit" (stderr c)
  | _ => false
  end.

(** The calls that a sync sequence of the handler [self] on [path] may
    make: a look at [path/.git], and [git] commands that run in [path]
    with the timeout of the gateway.  None of them is a clone; a pull
    needs pull-before-push to be switched on; the commit has the fixed
    message and the author of the configuration in its environment, and
    no other command has anything in its environment. *)
Definition sync_call (self : Watcher.config) (path : string) (ev : event)
  : Prop :=
  match ev with
  | EvRun argv cwd env t _ =>
      cwd = path /\ t = GitOps.git_timeout /\
      runs "clone" ev = false /\
      (runs "pull" ev = true -> Watcher.pull_before_push self = true) /\
      (if runs "commit" ev
       then argv = ["git"; "commit"; "-m"; "GitSync: auto sync"] /\
            env = [("GIT_AUTHOR_NAME", Watcher.user_name self);
                   ("GIT_AUTHOR_EMAIL", Watcher.user_email self)]
       else env = [])
  | EvIsdir p _ => p = OsPath.join path ".git"
  | _ => False
  end.

(** The calls that a pass of the detector may make: the query of the
    commits of the branch, with a timeout of 10; a look at
    [local_path/.git]; [os.makedirs] on the parent of [local_path] and a
    [git clone] from the directory of the process; [git remote] and [git
    pull] in [local_path]; the sleep of one interval.  No call stages,
    commits or pushes. *)
Definition detector_call (local_path : string) (token : option string)
    (branch : string) (interval_seconds : Z) (owner repo_name : string)
    (ev : event) : Prop :=
  match ev with
  | EvRun argv cwd env t _ =>
      env = [] /\ t = GitOps.git_timeout /\ writes_history ev = false /\
      (if runs "clone" ev then cwd = "."
       else cwd = local_path /\ (runs "pull" ev || runs "remote" ev = true))
  | EvGet url headers t _ =>
      url = Poller.commits_url owner repo_name branch /\
      headers = Poller.query_headers token /\ t = 10
  | EvIsdir p _ => p = OsPath.join local_path ".git"
  | EvMakedirs p _ => p = parent_dir local_path
  | EvSleep secs => secs = interval_seconds
  | EvWait _ => False
  end.



(** The remote answered a query with the revision [sha]. *)
Definition reported (sha : string) (ev : event) : bool :=
  match ev with
  | EvGet _ _ _ (HttpJson (Some sha')) => String.eqb sha sha'
  | _ => false
  end.

(** The value of [last_sha] with which a run of the detector ends. *)
Definition last_seen (r : result Poller.ending) : option string :=
  match r with
  | Ret (Poller.Stopped last) | Ret (Poller.Running last) => last
  | _ => None
  end.

End Observe.

(* ================================================================= *)
(** ** The gateway as a whole: one request per primitive of [git_ops] *)

Module Gateway.
Import Effects.
Local Open Scope py_scope.

Inductive request : Type :=
| Clone (repo local_path : string) (token : option string) (branch : string)
| Pull (local_path : string) (token repo : option string)
| AddAll (local_path : string)
| HasChanges (local_path : string)
| Commit (local_path message user_name user_email : string)
| Push (local_path : string) (token branch repo : option string)
| IsGitRepo (path : string)
| GetDefaultBranch (local_path : string)
| PullBeforePush (local_path : string) (repo token : option string).

Definition perform {W : Type} `{System W} (q : request) : M W unit :=
  match q with
  | Clone r p t b => GitOps.clone r p t b ;; ret tt
  | Pull p t r => GitOps.pull p t r ;; ret tt
  | AddAll p => GitOps.add_all p ;; ret tt
  | HasChanges p => GitOps.has_changes p ;; ret tt
  | Commit p m n e => GitOps.commit p m n e ;; ret tt
  | Push p t b r => GitOps.push p t b r ;; ret tt
  | IsGitRepo p => GitOps.is_git_repo p ;; ret tt
  | GetDefaultBranch p => GitOps.get_default_branch p ;; ret tt
  | PullBeforePush p r t => GitOps.pull_before_push p r t ;; ret tt
  end.

End Gateway.

(* ================================================================= *)
(** ** Scenarios *)

Module Scenario.
Import Effects.

Definition LF : string := String "010"%char EmptyString.

(** [git] never returns. *)
Definition hanging : state Sim.sim :=
  Sim.start (Sim.Sim [] [] (fun _ => Hangs)) None.

(** A working copy with nothing staged: [git commit] prints its status
    report on stdout, nothing on stderr, and exits with 1. *)
Definition nothing_staged : state Sim.sim :=
  Sim.start
    (Sim.Sim ["/srv/mirror/.git"] []
       (fun argv =>
          if PyStr.mem "commit" argv
          then Exits 0 1 ("On branch main" ++ LF ++
                          "nothing to commit, working tree clean" ++ LF) ""
          else Sim.git_ok argv))
    None.

(** A remote without the branch asked for: [git clone -b] fails with the
    diagnostic of git, a plain [git clone] succeeds. *)
Definition no_such_branch : state Sim.sim :=
  Sim.start
    (Sim.Sim [] []
       (fun argv =>
          if PyStr.mem "-b" argv
          then Exits 2 128 ""
                 "fatal: Remote branch nope not found in upstream origin"
          else Exits 5 0 "" "Cloning into '/srv/mirror'..."))
    None.

(** The handler that [main] builds from its defaults. *)
Definition handler_config : Watcher.config :=
  Watcher.Config "/srv/mirror" 30 "GitSync" "gitsync@local" None
    (Some "octo/mirror") (Some "main") true.

(** A working copy without local changes: [git status --porcelain] prints
    nothing. *)
Definition clean_tree : state Sim.sim :=
  Sim.start (Sim.Sim ["/srv/mirror/.git"] [] Sim.git_ok) None.

(** A working copy with a local change, on which the rebase runs into a
    conflict. *)
Definition rebase_conflict : state Sim.sim :=
  Sim.start
    (Sim.Sim ["/srv/mirror/.git"] []
       (fun argv =>
          if PyStr.mem "status" argv then Exits 0 0 " M notes.txt" ""
          else if PyStr.mem "--rebase" argv
          then Exits 1 1 "" "error: could not apply 1a2b3c4... edit notes"
          else Sim.git_ok argv))
    None.

(** Three saves of a file and a new file within a few seconds, and the
    bookkeeping of git in between. *)
Definition edits : list (Z * Watcher.fs_event) :=
  [(100, Watcher.FsEvent Watcher.Modified "/srv/mirror/notes.txt" false);
   (112, Watcher.FsEvent Watcher.Created "/srv/mirror/img/logo.png" false);
   (130, Watcher.FsEvent Watcher.Modified "/srv/mirror/notes.txt" false);
   (159, Watcher.FsEvent Watcher.Deleted "/srv/mirror/old.txt" false)].

(** What git does to its own index. *)
Definition index_written : Watcher.fs_event :=
  Watcher.FsEvent Watcher.Modified "/srv/mirror/.git/index" false.

(** A working copy that is in place when the detector starts, and a
    remote at revision ["a1b2c3"]. *)
Definition already_cloned : state Sim.sim :=
  Sim.start
    (Sim.Sim ["/srv/mirror/.git"] [HttpJson (Some "a1b2c3")] Sim.git_ok)
    None.

(** The remote cannot be reached, and the stop event is set one second
    after the detector has started. *)
Definition remote_down_stop_at_1 : state Sim.sim :=
  Sim.start (Sim.Sim ["/srv/mirror/.git"] [] Sim.git_ok) (Some 1).

(** The remote answers, and the stop event is set one second after the
    detector has started. *)
Definition remote_up_stop_at_1 : state Sim.sim :=
  Sim.start
    (Sim.Sim ["/srv/mirror/.git"] [HttpJson (Some "a1b2c3")] Sim.git_ok)
    (Some 1).

(** No working copy, and a remote that is seen at the revisions
    [a], [a], [b], [b], [a], one per query; every [git] command succeeds. *)
Definition revisions (a b : string) : state Sim.sim :=
  Sim.start
    (Sim.Sim []
       [HttpJson (Some a); HttpJson (Some a); HttpJson (Some b);
        HttpJson (Some b); HttpJson (Some a)]
       Sim.git_ok)
    None.


(** A working copy on the branch [trunk]. *)
Definition on_trunk : state Sim.sim :=
  Sim.start
    (Sim.Sim ["/srv/mirror/.git"] []
       (fun argv =>
          if PyStr.mem "rev-parse" argv then Exits 0 0 ("trunk" ++ LF) ""
          else Sim.git_ok argv))
    None.

(** A working copy with a local change, and a remote that takes the
    push. *)
Definition local_edit : state Sim.sim :=
  Sim.start
    (Sim.Sim ["/srv/mirror/.git"] []
       (fun argv =>
          if PyStr.mem "status" argv then Exits 0 0 " M notes.txt" ""
          else Sim.git_ok argv))
    None.

End Scenario.

(* ================================================================= *)
(** * Properties *)

(** ** Sanity checks of the runtime models *)

Example parts_abs : PathLib.parts "/srv/repo/.git/HEAD" = ["/"; "srv"; "repo"; ".git"; "HEAD"].
Proof. reflexivity. Qed.
Example parts_rel : PathLib.parts "a//b/./c/" = ["a"; "b"; "c"].
Proof. reflexivity. Qed.
Example parts_two_slashes : PathLib.parts "//a/b" = ["//"; "a"; "b"].
Proof. reflexivity. Qed.
Example parts_three_slashes : PathLib.parts "///a/b" = ["/"; "a"; "b"].
Proof. reflexivity. Qed.
Example dirname_nested : OsPath.dirname "/data/mirrors/repo" = "/data/mirrors".
Proof. reflexivity. Qed.
Example dirname_plain : OsPath.dirname "repo" = "".
Proof. reflexivity. Qed.
Example dirname_root : OsPath.dirname "/repo" = "/".
Proof. reflexivity. Qed.
Example join_git : OsPath.join "/data/repo" ".git" = "/data/repo/.git".
Proof. reflexivity. Qed.
Example replace_all : PyStr.replace "ab" "X" "abcabab" = "XcXX".
Proof. reflexivity. Qed.
Example strip_both : PyStr.strip "  a b
" = "a b".
Proof. reflexivity. Qed.

(* ================================================================= *)
(** ** The monad *)

Section MonadFacts.
Import Effects.
Context {W : Type} `{System W}.

Lemma trace_bind {A B} (m : M W A) (k : A -> M W B) (s : state W) :
  trace_of (bind m k s) =
  (trace_of (m s) ++
   match result_of (m s) with
   | Ret a => trace_of (k a (state_of (m s)))
   | Raise _ => []
   end)%list.
Proof.
  unfold bind, trace_of, result_of, state_of.
  destruct (m s) as [[r s1] t1]; cbn.
  destruct r as [a|e]; cbn.
  - destruct (k a s1) as [[r2 s2] t2]; reflexivity.
  - now rewrite app_nil_r.
Qed.

Lemma result_bind {A B} (m : M W A) (k : A -> M W B) (s : state W) :
  result_of (bind m k s) =
  match result_of (m s) with
  | Ret a => result_of (k a (state_of (m s)))
  | Raise e => Raise e
  end.
Proof.
  unfold bind, trace_of, result_of, state_of.
  destruct (m s) as [[r s1] t1]; cbn.
  destruct r as [a|e]; cbn; [|reflexivity].
  destruct (k a s1) as [[r2 s2] t2]; reflexivity.
Qed.


Lemma always_ret {A} P (a : A) : always P (ret a : M W A).
Proof. intro s; constructor. Qed.

Lemma always_raise {A} P e : always P (@raise W A e).
Proof. intro s; constructor. Qed.

Lemma always_bind {A B} P (m : M W A) (k : A -> M W B) :
  always P m -> (forall a, always P (k a)) -> always P (bind m k).
Proof.
  intros Hm Hk s. rewrite trace_bind. apply Forall_app. split; [apply Hm|].
  destruct (result_of (m s)); [apply Hk | constructor].
Qed.

Lemma always_try_except {A} P (m h : M W A) catches :
  always P m -> always P h -> always P (try_except m catches h).
Proof.
  intros Hm Hh s. specialize (Hm s). unfold try_except, trace_of in *.
  destruct (m s) as [[r s1] t1]; cbn in *.
  destruct r as [a|e]; cbn; [assumption|].
  destruct (catches e); cbn; [|assumption].
  specialize (Hh s1). destruct (h s1) as [[r2 s2] t2]; cbn in *.
  apply Forall_app; now split.
Qed.

Lemma always_if {A} P (b : bool) (m1 m2 : M W A) :
  always P m1 -> always P m2 -> always P (if b then m1 else m2).
Proof. now destruct b. Qed.

Lemma always_subprocess_run P argv cwd env t :
  (forall r, P (EvRun argv cwd env t r)) ->
  always P (subprocess_run argv cwd env t).
Proof.
  intros HP s. unfold subprocess_run, trace_of.
  destruct (sys_spawn argv cwd env (world s)) as [p w].
  destruct p as [secs rc out err| |]; [destruct (t <? secs)| |]; cbn;
    repeat constructor; apply HP.
Qed.

Lemma always_os_makedirs P path :
  (forall r, P (EvMakedirs path r)) -> always P (os_makedirs path).
Proof.
  intros HP s. unfold os_makedirs, trace_of.
  destruct (sys_makedirs path (world s)); cbn. repeat constructor; apply HP.
Qed.

Lemma always_os_path_isdir P path :
  (forall b, P (EvIsdir path b)) -> always P (os_path_isdir path).
Proof. intros HP s. cbn. repeat constructor; apply HP. Qed.

End MonadFacts.

(* ================================================================= *)
(** ** The gateway: [git_ops.py] *)

Section GitOpsFacts.
Import Effects GitOps Observe.
Context {W : Type} `{System W}.

Lemma _run_git_result cwd args env (s : state W) :
  result_of (_run_git cwd args env s) =
  verdict (fst (sys_spawn ("git" :: args) cwd env (world s))).
Proof.
  unfold _run_git, try_except, bind, subprocess_run, result_of, verdict.
  destruct (sys_spawn ("git" :: args) cwd env (world s)) as [p w]; cbn.
  destruct p as [secs rc out err| |]; [destruct (git_timeout <? secs)| |];
    reflexivity.
Qed.

Lemma _run_git_trace cwd args env (s : state W) :
  exists r, trace_of (_run_git cwd args env s) =
            [EvRun ("git" :: args) cwd env git_timeout r].
Proof.
  unfold _run_git, try_except, bind, subprocess_run, trace_of.
  destruct (sys_spawn ("git" :: args) cwd env (world s)) as [p w]; cbn.
  destruct p as [secs rc out err| |]; [destruct (git_timeout <? secs)| |];
    cbn; eexists; reflexivity.
Qed.

Lemma _run_git_clock cwd args env (s : state W) :
  clock (state_of (_run_git cwd args env s)) =
  clock s +
  match fst (sys_spawn ("git" :: args) cwd env (world s)) with
  | Exits secs _ _ _ => Z.min secs git_timeout
  | Hangs => git_timeout
  | CannotSpawn => 0
  end.
Proof.
  unfold _run_git, try_except, bind, subprocess_run, state_of.
  destruct (sys_spawn ("git" :: args) cwd env (world s)) as [p w]; cbn.
  destruct p as [secs rc out err| |]; cbn; try reflexivity.
  destruct (Z.ltb_spec git_timeout secs); cbn; f_equal; lia.
Qed.

Lemma always__run_git P cwd args env :
  (forall r, P (EvRun ("git" :: args) cwd env git_timeout r)) ->
  always P (_run_git cwd args env).
Proof.
  intros HP s. destruct (_run_git_trace cwd args env s) as [r ->].
  repeat constructor; apply HP.
Qed.

End GitOpsFacts.

(** Splits a goal [always P m] along the structure of [m]. *)
Ltac always_step :=
    first
      [ apply always_ret
      | apply always__run_git; intro
      | apply always_os_makedirs; intro
      | apply always_os_path_isdir; intro
      | apply always_bind; [|intro]
      | apply always_if
      | match goal with
        | |- Effects.always _ (match ?x with _ => _ end) => destruct x
        end ].

Ltac always_auto := repeat always_step.

Section GatewayFacts.
Import Effects GitOps Observe.
Context {W : Type} `{System W}.

Lemma always_refresh_remote P local_path repo token :
  (forall argv cwd env r, P (EvRun argv cwd env git_timeout r)) ->
  always P (refresh_remote local_path repo token).
Proof.
  intros HP. unfold refresh_remote, _set_remote_url.
  always_auto; apply HP.
Qed.

Lemma gateway_within_timeout (q : Gateway.request) :
  always within_timeout (Gateway.perform q).
Proof.
  assert (HP : forall argv cwd env r,
             within_timeout (EvRun argv cwd env git_timeout r)).
  { intros argv cwd env r t [= <-]. reflexivity. }
  destruct q; cbn [Gateway.perform];
    unfold clone, pull, add_all, has_changes, commit, push, is_git_repo,
           get_default_branch, pull_before_push;
    repeat first [ apply always_refresh_remote; exact HP | always_step ];
    try apply HP; try (intros t [=]).
Qed.

(** C8.  Every [git] child process is started with the fixed timeout of
    120: so is each [subprocess.run] of each request to the gateway, and
    so is the single one of [_run_git], which therefore returns within
    120 time units.  When the child is still running at the timeout,
    [_run_git] raises nothing and hides nothing: it returns the triple
    [(-1, "", "Timeout")], a return code other than 0 with the diagnostic
    ["Timeout"], exactly 120 time units after the call. *)
Theorem run_git_bounded_by_timeout
    (q : Gateway.request) (cwd : string) (args : list string)
    (env : environ) (s : state W) :
  always within_timeout (Gateway.perform q) /\
  (exists r, trace_of (_run_git cwd args env s) =
             [EvRun ("git" :: args) cwd env 120 r]) /\
  clock (state_of (_run_git cwd args env s)) <= clock s + 120 /\
  (overruns (fst (sys_spawn ("git" :: args) cwd env (world s))) = true ->
   result_of (_run_git cwd args env s) = Ret (Completed (-1) "" "Timeout") /\
   returncode timed_out <> 0 /\
   clock (state_of (_run_git cwd args env s)) = clock s + 120).
Proof.
  split; [apply gateway_within_timeout|].
  split; [apply _run_git_trace|].
  rewrite _run_git_clock, _run_git_result.
  destruct (fst (sys_spawn ("git" :: args) cwd env (world s)))
    as [secs rc out err| |]; unfold git_timeout; cbn [verdict overruns].
  - split; [lia|]. intros Hover.
    rewrite Hover. apply Z.ltb_lt in Hover. unfold git_timeout in Hover.
    split; [reflexivity|]. split; [discriminate | lia].
  - split; [lia|]. intros _.
    split; [reflexivity|]. split; [discriminate | reflexivity].
  - split; [lia|]. discriminate.
Qed.

End GatewayFacts.

(** A [git pull] that never returns, in a scripted world. *)
Lemma run_git_bounded_by_timeout_witness :
  Effects.result_of
    (GitOps._run_git "/srv/mirror" ["pull"] [] Scenario.hanging) =
    Effects.Ret (Effects.Completed (-1) "" "Timeout") /\
  Effects.returncode Observe.timed_out <> 0 /\
  Effects.clock
    (Effects.state_of
       (GitOps._run_git "/srv/mirror" ["pull"] [] Scenario.hanging)) =
    Effects.clock Scenario.hanging + 120.
Proof.
  apply (run_git_bounded_by_timeout
           (Gateway.IsGitRepo "/srv/mirror") "/srv/mirror" ["pull"] []
           Scenario.hanging).
  reflexivity.
Defined.

Section CloneAndCommit.
Import Effects GitOps Observe.
Context {W : Type} `{System W}.

(** What [commit] answers, from the verdict on [git commit]. *)
Lemma commit_result local_path message user_name user_email (s : state W) :
  result_of (commit local_path message user_name user_email s) =
  match verdict (fst (sys_spawn ["git"; "commit"; "-m"; message] local_path
                        [("GIT_AUTHOR_NAME", user_name);
                         ("GIT_AUTHOR_EMAIL", user_email)] (world s))) with
  | Ret c =>
      Ret ((returncode c =? 0) || PyStr.contains "nothing to commit" (stderr c))
  | Raise e => Raise e
  end.
Proof.
  unfold commit. rewrite result_bind, _run_git_result.
  destruct (verdict _) as [c|e]; [|reflexivity].
  destruct (returncode c =? 0); cbn; [reflexivity|].
  destruct (PyStr.contains "nothing to commit" (stderr c)); reflexivity.
Qed.

(** The path that [commit] does handle: the words on stderr. *)
Lemma commit_nothing_on_stderr local_path message user_name user_email
    (s : state W) secs rc out err w :
  sys_spawn ["git"; "commit"; "-m"; message] local_path
    [("GIT_AUTHOR_NAME", user_name); ("GIT_AUTHOR_EMAIL", user_email)]
    (world s) = (Exits secs rc out err, w) ->
  secs <= 120 ->
  PyStr.contains "nothing to commit" err = true ->
  result_of (commit local_path message user_name user_email s) = Ret true.
Proof.
  intros Hs Hsecs Herr. rewrite commit_result, Hs. cbn.
  unfold git_timeout. destruct (Z.ltb_spec 120 secs); [lia|]. cbn.
  rewrite Herr. now rewrite orb_true_r.
Qed.

(** C9.  [clone] first asks for the parent directory of the local path
    (["."] when it has none) to be created, parents included.  When the
    clone of the named branch then fails with a diagnostic of a branch
    not found, and the clone without a branch that follows succeeds,
    [clone] returns success; the gateway has seen exactly these three
    calls. *)
Theorem clone_falls_back_to_default_branch
    (repo local_path : string) (token : option string) (branch : string)
    (s : state W) :
  let url := _repo_url_with_token repo token in
  let named := ["git"; "clone"; "--depth"; "1"; "-b"; branch; url; local_path] in
  let default := ["git"; "clone"; "--depth"; "1"; url; local_path] in
  (exists r rest,
      trace_of (clone repo local_path token branch s) =
      EvMakedirs (parent_dir local_path) r :: rest) /\
  (forall w1 w2 w3 secs1 rc1 out1 err1 secs2 out2 err2,
      sys_makedirs (parent_dir local_path) (world s) = (Ret tt, w1) ->
      sys_spawn named "." [] w1 = (Exits secs1 rc1 out1 err1, w2) ->
      secs1 <= 120 ->
      rc1 <> 0 ->
      branch_not_found err1 = true ->
      sys_spawn default "." [] w2 = (Exits secs2 0 out2 err2, w3) ->
      secs2 <= 120 ->
      result_of (clone repo local_path token branch s) = Ret true /\
      trace_of (clone repo local_path token branch s) =
      [EvMakedirs (parent_dir local_path) (Ret tt);
       EvRun named "." [] 120 (Ret (Completed rc1 out1 err1));
       EvRun default "." [] 120 (Ret (Completed 0 out2 err2))]).
Proof.
  intros url named default. subst url named default. split.
  - unfold clone. rewrite trace_bind.
    fold (parent_dir local_path).
    unfold os_makedirs at 1. unfold trace_of at 1.
    destruct (sys_makedirs (parent_dir local_path) (world s)) as [r w].
    cbn [snd app]. eauto.
  - intros w1 w2 w3 secs1 rc1 out1 err1 secs2 out2 err2
           Hmk Hnamed Hsecs1 Hrc1 Hnf Hdefault Hsecs2.
    unfold branch_not_found in Hnf.
    apply Z.eqb_neq in Hrc1. apply Z.ltb_ge in Hsecs1, Hsecs2.
    unfold clone, _run_git, try_except, bind, os_makedirs, subprocess_run,
      result_of, trace_of, ret.
    fold (parent_dir local_path).
    rewrite Hmk. cbn [world with_world tick]. rewrite Hnamed.
    unfold git_timeout. rewrite Hsecs1.
    cbn [world with_world tick returncode stderr stdout fst snd app].
    rewrite Hrc1. cbn [negb]. rewrite Hnf.
    cbn [world with_world tick]. rewrite Hdefault. rewrite Hsecs2.
    cbn. split; reflexivity.
Qed.

End CloneAndCommit.

(** A remote that lacks the branch ["nope"]. *)
Lemma clone_falls_back_to_default_branch_witness :
  Effects.result_of
    (GitOps.clone "octo/mirror" "/srv/mirror" None "nope" Scenario.no_such_branch)
  = Effects.Ret true.
Proof.
  eapply (proj2 (clone_falls_back_to_default_branch
                   "octo/mirror" "/srv/mirror" None "nope"
                   Scenario.no_such_branch));
    try reflexivity; cbn; lia || discriminate.
Defined.

(** C6, at the input on which the code departs from the claim: a commit
    with nothing staged.  [git commit] exits with 1 and reports "nothing to
    commit" on stdout; [commit] looks for the words on stderr only, and
    answers failure. *)
Theorem commit_nothing_staged_reports_failure :
  Effects.result_of
    (GitOps.commit "/srv/mirror" "GitSync: auto sync" "GitSync" "gitsync@local"
       Scenario.nothing_staged)
  = Effects.Ret false.
Proof. reflexivity. Qed.

(* ================================================================= *)
(** ** The sync sequence of the watcher *)

Section SyncSequence.
Import Effects GitOps Observe Watcher.
Context {W : Type} `{System W}.

Lemma is_git_repo_pure path (s : state W) :
  state_of (is_git_repo path s) = s /\
  exists b, result_of (is_git_repo path s) = Ret b /\
    trace_of (is_git_repo path s) = [EvIsdir (OsPath.join path ".git") b].
Proof. split; [reflexivity|]. eexists; split; reflexivity. Qed.

Lemma quiet_is_git_repo path : always quiet (is_git_repo path).
Proof. unfold is_git_repo. always_auto. reflexivity. Qed.

Lemma quiet_has_changes path : always quiet (has_changes path).
Proof. unfold has_changes. always_auto. reflexivity. Qed.

Lemma quiet_pull_before_push path repo token :
  always quiet (GitOps.pull_before_push path repo token).
Proof.
  unfold GitOps.pull_before_push, refresh_remote, _set_remote_url.
  always_auto; reflexivity.
Qed.

Lemma no_failed_rebase_is_git_repo path :
  always no_failed_rebase (is_git_repo path).
Proof. unfold is_git_repo. always_auto. reflexivity. Qed.

Lemma no_failed_rebase_has_changes path :
  always no_failed_rebase (has_changes path).
Proof. unfold has_changes. always_auto. reflexivity. Qed.

Lemma no_failed_rebase_add_all path : always no_failed_rebase (add_all path).
Proof. unfold add_all. always_auto. reflexivity. Qed.

Lemma no_failed_rebase_commit path message name email :
  always no_failed_rebase (commit path message name email).
Proof. unfold commit. always_auto. reflexivity. Qed.

Lemma no_failed_rebase_push path token branch repo :
  always no_failed_rebase (push path token branch repo).
Proof.
  unfold push, refresh_remote, _set_remote_url.
  destruct branch as [b|]; [destruct (PyStr.truthy b)|];
    always_auto; reflexivity.
Qed.

Lemma _run_git_raw cwd args env (s : state W) :
  exists r,
  trace_of (_run_git cwd args env s) =
  [EvRun ("git" :: args) cwd env git_timeout r] /\
  result_of (_run_git cwd args env s) =
  match r with
  | Ret c => Ret c
  | Raise ExTimeoutExpired => Ret timed_out
  | Raise e => Raise e
  end.
Proof.
  unfold _run_git, try_except, bind, subprocess_run, trace_of, result_of.
  destruct (sys_spawn ("git" :: args) cwd env (world s)) as [p w]; cbn.
  destruct p as [secs rc out err| |]; [destruct (git_timeout <? secs)| |];
    cbn; eexists; split; reflexivity.
Qed.

Lemma no_failed_rebase_refresh_remote path repo token :
  always no_failed_rebase (refresh_remote path repo token).
Proof. unfold refresh_remote, _set_remote_url. always_auto; reflexivity. Qed.

(** A pull-with-rebase that answers success has seen its [git pull
    --rebase] succeed. *)
Lemma pull_before_push_true path repo token (s : state W) :
  result_of (GitOps.pull_before_push path repo token s) = Ret true ->
  Forall no_failed_rebase (trace_of (GitOps.pull_before_push path repo token s)).
Proof.
  unfold GitOps.pull_before_push. rewrite result_bind, trace_bind.
  intros Hres. apply Forall_app. split.
  { apply no_failed_rebase_refresh_remote. }
  destruct (result_of (refresh_remote path repo token s)) as [[]|e];
    [|constructor].
  revert Hres. rewrite result_bind, trace_bind.
  set (s1 := state_of (refresh_remote path repo token s)).
  destruct (_run_git_raw path ["pull"; "--rebase"] [] s1) as (r & -> & ->).
  destruct r as [c|e]; [|destruct e; discriminate].
  intros Hres. apply Forall_app. split.
  - repeat constructor. unfold no_failed_rebase. cbn.
    destruct (returncode c =? 0); [reflexivity | discriminate].
  - destruct (returncode c =? 0); cbn; constructor.
Qed.

(** C4.  When [has_changes] answers false, the sync sequence returns
    normally and none of its calls stages, commits or pushes.  (The check
    [is_git_repo] that comes first only reads the file system, so
    [has_changes] runs in the state in which the sequence starts.) *)
Theorem no_pending_changes_no_history_writes
  (self : config) (path : string) (s : state W) :
  result_of (has_changes path s) = Ret false ->
  result_of (_do_commit_and_push self path s) = Ret tt /\
  Forall quiet (trace_of (_do_commit_and_push self path s)).
Proof.
  intros Hno. unfold _do_commit_and_push.
  rewrite result_bind, trace_bind.
  destruct (is_git_repo_pure path s) as (-> & b & -> & Htr).
  split.
  - destruct b; cbn [negb]; [|reflexivity].
    rewrite result_bind, Hno. reflexivity.
  - apply Forall_app. split; [apply quiet_is_git_repo|].
    destruct b; cbn [negb]; [|constructor].
    rewrite trace_bind, Hno. cbn [negb].
    apply Forall_app. split; [apply quiet_has_changes | constructor].
Qed.

(** With pull-before-push switched on, a sync sequence either stops before
    it stages anything or has seen no [git pull --rebase] fail. *)
Lemma sync_stops_or_rebased (self : config) (path : string) (s : state W) :
  Watcher.pull_before_push self = true ->
  Forall quiet (trace_of (_do_commit_and_push self path s)) \/
  Forall no_failed_rebase (trace_of (_do_commit_and_push self path s)).
Proof.
  intros Hcfg. unfold _do_commit_and_push. rewrite Hcfg.
  rewrite trace_bind.
  destruct (is_git_repo_pure path s) as (-> & b & -> & _).
  destruct b; cbn [negb].
  2:{ left. apply Forall_app. split; [apply quiet_is_git_repo | constructor]. }
  rewrite trace_bind.
  set (s1 := state_of (has_changes path s)).
  destruct (result_of (has_changes path s)) as [changed|e].
  2:{ left. repeat (apply Forall_app; split);
    [apply quiet_is_git_repo | apply quiet_has_changes | constructor]. }
  destruct changed; cbn [negb].
  2:{ left. repeat (apply Forall_app; split);
    [apply quiet_is_git_repo | apply quiet_has_changes | constructor]. }
  rewrite trace_bind.
  set (s2 := state_of (GitOps.pull_before_push path (repo self) (token self) s1)).
  destruct (result_of (GitOps.pull_before_push path (repo self) (token self) s1))
    as [pulled|e] eqn:Hpull.
  2:{ left. repeat (apply Forall_app; split);
    [apply quiet_is_git_repo | apply quiet_has_changes
    | apply quiet_pull_before_push | constructor]. }
  destruct pulled; cbn [negb].
  2:{ left. repeat (apply Forall_app; split);
    [apply quiet_is_git_repo | apply quiet_has_changes
    | apply quiet_pull_before_push | constructor]. }
  right.
  apply Forall_app; split; [apply no_failed_rebase_is_git_repo|].
  apply Forall_app; split; [apply no_failed_rebase_has_changes|].
  apply Forall_app; split; [apply pull_before_push_true; exact Hpull|].
  generalize s2. change (always no_failed_rebase
    (staged <- add_all path;;
    (if negb staged then ret tt else
    committed <- commit path "GitSync: auto sync" (user_name self) (user_email self);;
    (if negb committed then ret tt else
    push path (token self) (branch self) (repo self);; ret tt)))%py).
  repeat first
    [ apply no_failed_rebase_add_all
    | apply no_failed_rebase_commit
    | apply no_failed_rebase_push
    | always_step ].
Qed.

(** C3.  With pull-before-push switched on, a sync sequence in which the
    [git pull --rebase] fails (it ends with a return code other than 0,
    runs into the timeout or cannot be started) makes no call that stages,
    commits or pushes. *)
Theorem failed_pull_rebase_stops_cycle
  (self : config) (path : string) (s : state W) :
  Watcher.pull_before_push self = true ->
  Exists (fun ev => failed_pull_rebase ev = true)
     (trace_of (_do_commit_and_push self path s)) ->
  Forall quiet (trace_of (_do_commit_and_push self path s)).
Proof.
  intros Hcfg Hfail.
  destruct (sync_stops_or_rebased self path s Hcfg) as [Hq|Hn]; [exact Hq|].
  exfalso. apply Exists_exists in Hfail. destruct Hfail as (ev & Hin & Hev).
  rewrite Forall_forall in Hn. specialize (Hn ev Hin).
  unfold no_failed_rebase in Hn. congruence.
Qed.

End SyncSequence.


(** A working copy without local changes. *)
Lemma no_pending_changes_no_history_writes_witness :
    Effects.result_of
      (Watcher._do_commit_and_push Scenario.handler_config "/srv/mirror"
         Scenario.clean_tree) = Effects.Ret tt /\
    Forall Observe.quiet
      (Effects.trace_of
         (Watcher._do_commit_and_push Scenario.handler_config "/srv/mirror"
            Scenario.clean_tree)).
Proof.
  apply (no_pending_changes_no_history_writes
    Scenario.handler_config "/srv/mirror" Scenario.clean_tree).
  reflexivity.
Defined.

(** A local change and a rebase that runs into a conflict. *)
Lemma failed_pull_rebase_stops_cycle_witness :
    Forall Observe.quiet
      (Effects.trace_of
         (Watcher._do_commit_and_push Scenario.handler_config "/srv/mirror"
            Scenario.rebase_conflict)).
Proof.
  apply (failed_pull_rebase_stops_cycle
    Scenario.handler_config "/srv/mirror" Scenario.rebase_conflict).
  - reflexivity.
  - vm_compute. do 2 apply Exists_cons_tl. apply Exists_cons_hd. reflexivity.
Defined.

(* ================================================================= *)
(** ** Paths *)

Section Paths.
Import PyStr PathLib.

Lemma split_not_nil sep s : split sep s <> [].
Proof.
  destruct s as [|c s]; cbn; [discriminate|].
  destruct (Ascii.eqb c sep); [discriminate|].
  destruct (split sep s); discriminate.
Qed.

(** Splitting goes through a separator. *)
Lemma split_app_sep sep a b :
  split sep (a ++ String sep b) = (split sep a ++ split sep b)%list.
Proof.
  induction a as [|c a IH]; cbn.
  - now rewrite Ascii.eqb_refl.
  - destruct (Ascii.eqb c sep); [now rewrite IH|].
    rewrite IH. destruct (split sep a) as [|piece pieces] eqn:E.
    + now apply split_not_nil in E.
    + reflexivity.
Qed.

Lemma append_assoc (a b c : string) : (a ++ b) ++ c = a ++ (b ++ c).
Proof. induction a as [|x a IH]; cbn; [reflexivity | now rewrite IH]. Qed.

Lemma strip_prefix_app p s r : strip_prefix p s = Some r -> s = p ++ r.
Proof.
  revert s. induction p as [|a p IH]; intros s; cbn.
  - now intros [= ->].
  - destruct s as [|b s]; [discriminate|].
    destruct (Ascii.eqb_spec a b) as [->|]; [|discriminate].
    intros Hs. now rewrite (IH _ Hs).
Qed.

(** Leading slashes add no component: the root that [splitroot] takes off
    does not change the components kept. *)
Lemma kept_parts_of_rest p :
  filter keep_part (split OsPath.slash (snd (splitroot p))) =
  filter keep_part (split OsPath.slash p).
Proof.
  unfold splitroot.
  destruct p as [|c1 p1]; [reflexivity|]. cbn [starts_with_slash].
  destruct (Ascii.eqb_spec c1 OsPath.slash) as [->|]; [|reflexivity].
  cbn [negb drop].
  assert (Hdrop : forall q, filter keep_part (split OsPath.slash (String OsPath.slash q))
                            = filter keep_part (split OsPath.slash q)).
  { intros q. cbn [split]. rewrite Ascii.eqb_refl. reflexivity. }
  rewrite Hdrop.
  destruct p1 as [|c2 p2]; [reflexivity|]. cbn [starts_with_slash].
  destruct (Ascii.eqb_spec c2 OsPath.slash) as [->|]; [|reflexivity].
  cbn [negb orb]. destruct (starts_with_slash p2); [reflexivity|].
  cbn [snd]. now rewrite Hdrop.
Qed.

Lemma mem_In x l : In x l -> mem x l = true.
Proof.
  intros Hin. unfold mem. apply existsb_exists.
  exists x. split; [assumption | apply String.eqb_refl].
Qed.

(** A path into the metadata directory has the component [".git"]. *)
Lemma git_is_a_part watched path :
  Watcher.under_git_dir watched path = true ->
  mem ".git" (parts path) = true.
Proof.
  unfold Watcher.under_git_dir.
  destruct (strip_prefix (watched ++ "/.git") path) as [rest|] eqn:Hpre;
    [|discriminate].
  apply strip_prefix_app in Hpre. subst path. intros Hrest.
  assert (Hin : In ".git" (filter keep_part
                             (split OsPath.slash ((watched ++ "/.git") ++ rest)))).
  { apply filter_In. split; [|reflexivity].
    replace ((watched ++ "/.git") ++ rest)
      with (watched ++ String OsPath.slash (".git" ++ rest)).
    2:{ now rewrite append_assoc. }
    rewrite split_app_sep. apply in_or_app. right.
    destruct rest as [|c rest]; [left; reflexivity|].
    unfold startswith in Hrest. cbn [negb truthy orb prefix] in Hrest.
    destruct (ascii_dec "/" c) as [<-|]; [|discriminate Hrest].
    change (".git" ++ String "/" rest) with (".git" ++ String OsPath.slash rest).
    rewrite split_app_sep. left. reflexivity. }
  unfold parts. rewrite (surjective_pairing (splitroot _)).
  rewrite kept_parts_of_rest.
  apply mem_In.
  destruct (truthy (fst (splitroot ((watched ++ "/.git") ++ rest))));
    [apply in_cons|]; exact Hin.
Qed.

End Paths.

(* ================================================================= *)
(** ** The watcher: [local_watcher.py] *)

Section WatcherFacts.
Import Watcher.
Variable self : config.

Lemma under_git_dir_truthy watched path :
  under_git_dir watched path = true -> PyStr.truthy path = true.
Proof.
  destruct path; [|reflexivity].
  unfold under_git_dir. now destruct watched.
Qed.

(** C5.  An event whose path lies in the directory [.git] of a directory
    (the watched one, or any other) leaves the handler as it is, whatever
    its type: no timer is cancelled and none is started. *)
Theorem events_under_git_dir_are_discarded
    (watched : string) (now : Z) (ev : fs_event) (h : handler) :
  under_git_dir watched (src_path ev) = true ->
  dispatch self now ev h = h /\ _on_event self now ev h = h.
Proof.
  intros Hunder.
  assert (Hev : _on_event self now ev h = h).
  { unfold _on_event.
    rewrite (under_git_dir_truthy _ _ Hunder).
    now rewrite (git_is_a_part _ _ Hunder). }
  split; [|exact Hev].
  unfold dispatch, on_moved, on_deleted, on_created, on_modified.
  destruct (kind ev); try exact Hev; try reflexivity.
  now destruct (is_directory ev).
Qed.

(** The events that qualify are those that reset the timer; the handler
    discards the others. *)
Lemma dispatch_qualifies now ev h :
  dispatch self now ev h =
  if qualifies ev then _reset_timer self now h else h.
Proof.
  unfold dispatch, on_moved, on_deleted, on_created, on_modified, _on_event,
    qualifies.
  assert (Hsrc : (if PyStr.truthy (src_path ev) then src_path ev else "")
                 = src_path ev) by now destruct (src_path ev).
  rewrite Hsrc.
  destruct (kind ev), (PyStr.mem ".git" (PathLib.parts (src_path ev))),
    (is_directory ev); reflexivity.
Qed.

End WatcherFacts.

(** git rewrites its index below the watched directory. *)
Lemma events_under_git_dir_are_discarded_witness :
  Watcher.dispatch Scenario.handler_config 7 Scenario.index_written
    Watcher.new_handler = Watcher.new_handler /\
  Watcher._on_event Scenario.handler_config 7 Scenario.index_written
    Watcher.new_handler = Watcher.new_handler.
Proof.
  apply (events_under_git_dir_are_discarded
           Scenario.handler_config "/srv/mirror" 7 Scenario.index_written
           Watcher.new_handler).
  reflexivity.
Defined.

Section Debounce.
Import Watcher.
Variable self : config.

Lemma set_finished_last old tm :
  set_finished (List.length old) (old ++ [tm])
  = (old ++ [Timer (started tm) (interval tm) true])%list.
Proof. induction old as [|x old IH]; cbn; [reflexivity | now rewrite IH]. Qed.

Lemma fold_left_fixed {A B} (f : A -> B -> A) (l : list B) (a : A) :
  (forall b, In b l -> f a b = a) -> fold_left f l a = a.
Proof.
  induction l as [|b l IH]; cbn; intros Hf; [reflexivity|].
  rewrite (Hf b (or_introl eq_refl)). apply IH. intros; apply Hf. now right.
Qed.

(** A finished timer does nothing when its thread wakes up. *)
Lemma timer_run_finished old at_ secs i :
  all_finished old -> (i < List.length old)%nat ->
  timer_run i (armed old at_ secs) = armed old at_ secs.
Proof.
  intros Hold Hi. unfold timer_run. cbn [timers armed].
  rewrite nth_error_app1 by assumption.
  destruct (nth_error old i) as [tm|] eqn:E; [|reflexivity].
  apply nth_error_In in E. unfold all_finished in Hold.
  rewrite Forall_forall in Hold. now rewrite (Hold tm E).
Qed.

(** The pending timer runs its callback at its due time. *)
Lemma timer_run_pending old at_ secs :
  fired (timer_run (List.length old) (armed old at_ secs))
  = [at_ + Z.max 0 secs].
Proof.
  unfold timer_run. cbn [timers armed].
  rewrite nth_error_app2, Nat.sub_diag by apply Nat.le_refl. reflexivity.
Qed.

(** Nothing happens before the pending timer is due. *)
Lemma expire_armed old at_ secs now :
  all_finished old -> now < at_ + Z.max 0 secs ->
  expire now (armed old at_ secs) = armed old at_ secs.
Proof.
  intros Hold Hnow. unfold expire. apply fold_left_fixed.
  intros i Hi. apply in_seq in Hi. cbn [timers armed] in Hi.
  rewrite length_app in Hi. cbn [List.length] in Hi.
  destruct (Nat.eq_dec i (List.length old)) as [->|Hne].
  - unfold is_due. cbn [timers armed].
    rewrite nth_error_app2, Nat.sub_diag by apply Nat.le_refl.
    cbn [nth_error]. unfold due_time. cbn [started interval].
    destruct (Z.leb_spec (at_ + Z.max 0 secs) now); [lia | reflexivity].
  - destruct (is_due now (armed old at_ secs) i); [|reflexivity].
    apply timer_run_finished; [assumption | lia].
Qed.

(** A qualifying event cancels the pending timer and starts a new one. *)
Lemma reset_armed old at_ secs now :
  _reset_timer self now (armed old at_ secs)
  = armed (old ++ [Timer at_ secs true]) now (debounce_seconds self).
Proof.
  unfold _reset_timer, armed. cbn [_timer timers fired cancel].
  rewrite set_finished_last. reflexivity.
Qed.

(** With no further event, the pending timer is the only one to fire. *)
Lemma quiesce_armed old at_ secs :
  all_finished old ->
  fired (quiesce (armed old at_ secs)) = [at_ + Z.max 0 secs].
Proof.
  intros Hold. unfold quiesce. cbn [timers armed].
  rewrite length_app. cbn [List.length]. rewrite seq_app, fold_left_app.
  cbn [seq fold_left Nat.add].
  rewrite fold_left_fixed.
  - apply timer_run_pending.
  - intros i Hi. apply in_seq in Hi. apply timer_run_finished; [assumption | lia].
Qed.

Lemma chained_deliver evs :
  forall old at_,
    all_finished old ->
    0 <= debounce_seconds self ->
    chained (debounce_seconds self) at_ evs = true ->
    exists old',
      all_finished old' /\
      deliver self evs (armed old at_ (debounce_seconds self))
      = armed old' (last_time at_ evs) (debounce_seconds self).
Proof.
  induction evs as [|[now ev] evs IH]; intros old at_ Hold Hd Hch.
  - exists old. split; [assumption | reflexivity].
  - cbn [chained] in Hch.
    apply andb_prop in Hch. destruct Hch as [Hch Hrest].
    apply andb_prop in Hch. destruct Hch as [Hch Hlt].
    apply andb_prop in Hch. destruct Hch as [Hq Hle].
    apply Z.leb_le in Hle. apply Z.ltb_lt in Hlt.
    cbn [deliver last_time].
    rewrite expire_armed by (assumption || lia).
    rewrite dispatch_qualifies, Hq, reset_armed.
    apply IH; [|assumption|assumption].
    apply Forall_app. split; [assumption|]. repeat constructor.
Qed.

Lemma burst_settles (evs : list (Z * fs_event)) :
  0 <= debounce_seconds self ->
  is_burst (debounce_seconds self) evs = true ->
  syncs self evs = [last_time 0 evs + debounce_seconds self].
Proof.
  intros Hd Hburst. destruct evs as [|[now ev] evs]; [discriminate|].
  cbn [is_burst] in Hburst. apply andb_prop in Hburst.
  destruct Hburst as [Hq Hch].
  unfold syncs. cbn [deliver last_time].
  change (expire now new_handler) with new_handler.
  rewrite dispatch_qualifies, Hq.
  change (_reset_timer self now new_handler)
    with (armed [] now (debounce_seconds self)).
  destruct (chained_deliver evs [] now) as (old' & Hold' & ->);
    [constructor | assumption | assumption |].
  rewrite quiesce_armed by assumption. f_equal. lia.
Qed.

Lemma set_finished_nth i l tm :
  nth_error l i = Some tm ->
  nth_error (set_finished i l) i
  = Some (Timer (started tm) (interval tm) true).
Proof.
  revert i. induction l as [|x l IH]; intros [|i]; cbn; try discriminate.
  - now intros [= ->].
  - apply IH.
Qed.

Lemma set_finished_length i l :
  List.length (set_finished i l) = List.length l.
Proof.
  revert i. induction l as [|x l IH]; intros [|i]; cbn; try reflexivity.
  now rewrite IH.
Qed.

(** The timer that was pending is cancelled. *)
Lemma reset_timer_cancels now (h : handler) i tm :
  _timer h = Some i ->
  nth_error (timers h) i = Some tm ->
  nth_error (timers (_reset_timer self now h)) i
  = Some (Timer (started tm) (interval tm) true).
Proof.
  intros Hi Htm. unfold _reset_timer. rewrite Hi. cbn [timers cancel].
  rewrite nth_error_app1.
  - now apply set_finished_nth.
  - rewrite set_finished_length. apply nth_error_Some. congruence.
Qed.

(** A new timer is started, and it is the one the handler refers to. *)
Lemma reset_timer_schedules now (h : handler) :
  exists j,
    _timer (_reset_timer self now h) = Some j /\
    nth_error (timers (_reset_timer self now h)) j
    = Some (Timer now (debounce_seconds self) false).
Proof.
  unfold _reset_timer. cbn [_timer timers].
  eexists. split; [reflexivity|].
  rewrite nth_error_app2, Nat.sub_diag by apply Nat.le_refl. reflexivity.
Qed.

(** C1.  A burst of qualifying events, each less than the debounce window
    after the one before, starts exactly one sync sequence, and starts it
    [debounce_seconds] after the last event of the burst.  This is so
    because each qualifying event cancels the timer that is pending, if
    any, and starts a new one, due at [now + debounce_seconds]. *)
Theorem burst_fires_once_after_last_event :
  0 <= debounce_seconds self ->
  (forall evs : list (Z * fs_event),
      is_burst (debounce_seconds self) evs = true ->
      syncs self evs = [last_time 0 evs + debounce_seconds self]) /\
  (forall (now : Z) (ev : fs_event) (h : handler),
      qualifies ev = true ->
      (forall i tm,
          _timer h = Some i -> nth_error (timers h) i = Some tm ->
          nth_error (timers (dispatch self now ev h)) i
          = Some (Timer (started tm) (interval tm) true)) /\
      (exists j tm,
          _timer (dispatch self now ev h) = Some j /\
          nth_error (timers (dispatch self now ev h)) j = Some tm /\
          finished tm = false /\
          due_time tm = now + debounce_seconds self)).
Proof.
  intros Hd. split.
  - intros evs. now apply burst_settles.
  - intros now ev h Hq. rewrite dispatch_qualifies, Hq. split.
    + intros i tm. apply reset_timer_cancels.
    + destruct (reset_timer_schedules now h) as (j & Hj & Hnth).
      exists j, (Timer now (debounce_seconds self) false).
      repeat split; try assumption.
      unfold due_time. cbn [started interval]. lia.
Qed.

End Debounce.

(** Four edits within a minute, thirty seconds of debounce. *)
Lemma burst_fires_once_after_last_event_witness :
  Watcher.syncs Scenario.handler_config Scenario.edits = [189].
Proof.
  refine (proj1 (burst_fires_once_after_last_event
                   Scenario.handler_config _) Scenario.edits _).
  - cbn. lia.
  - reflexivity.
Defined.

(* ================================================================= *)
(** ** The detector: [github_poller.py] *)

Section PollerFacts.
Import Effects Observe Poller.
Context {W : Type} `{System W}.

Variables (repo local_path : string) (token : option string) (branch : string).
Variables (interval_seconds : Z) (on_pull : option (M W unit)).
Variables (owner repo_name : string).

Let url := commits_url owner repo_name branch.
Let headers := query_headers token.
Let git_dir := OsPath.join local_path ".git".
Let pass := poll_once repo local_path token branch interval_seconds on_pull
              owner repo_name.

(** What a query comes to. *)
Lemma fetch_latest_sha_eq (s : state W) :
  fetch_latest_sha owner repo_name branch token s =
  (match fst (sys_http_get url headers (world s)) with
   | HttpJson sha => Ret sha
   | HttpRequestError => Ret None
   | HttpOtherError => Raise ExOther
   end,
   with_world (snd (sys_http_get url headers (world s))) s,
   [EvGet url headers 10 (fst (sys_http_get url headers (world s)))]).
Proof.
  unfold fetch_latest_sha, try_except, bind, requests_get.
  fold url. fold headers.
  destruct (sys_http_get url headers (world s)) as [r w]. cbn [fst snd].
  destruct r as [sha| |]; reflexivity.
Qed.

(** A failed query: the pass sleeps for the interval and goes on with the
    next pass, the last-seen revision being what it was. *)
Lemma pass_query_failed (last : option string) (s : state W) w :
  sys_http_get url headers (world s) = (HttpRequestError, w) ->
  0 <= interval_seconds ->
  pass last s =
  (Ret (Continue, last), tick interval_seconds (with_world w s),
   [EvGet url headers 10 HttpRequestError; EvSleep interval_seconds]).
Proof.
  intros Hget Hpos. unfold pass, poll_once, try_except, bind.
  rewrite fetch_latest_sha_eq. fold url. fold headers. rewrite Hget.
  cbn [fst snd]. unfold time_sleep.
  destruct (Z.ltb_spec interval_seconds 0); [lia|]. reflexivity.
Qed.

(** The first answer with a working copy in place: the revision is
    adopted, and nothing else happens. *)
Lemma pass_adopts (sha : string) (s : state W) w :
  sys_http_get url headers (world s) = (HttpJson (Some sha), w) ->
  sys_isdir git_dir w = true ->
  pass None s =
  (Ret (Fallthrough, Some sha), with_world w s,
   [EvGet url headers 10 (HttpJson (Some sha)); EvIsdir git_dir true]).
Proof.
  intros Hget Hdir. unfold pass, poll_once, try_except, bind.
  rewrite fetch_latest_sha_eq. fold url. fold headers. rewrite Hget.
  cbn [fst snd]. unfold GitOps.is_git_repo, os_path_isdir. fold git_dir.
  cbn [world with_world]. rewrite Hdir. reflexivity.
Qed.

(** The revision seen last, seen again: nothing happens. *)
Lemma pass_unchanged (sha : string) (s : state W) w :
  sys_http_get url headers (world s) = (HttpJson (Some sha), w) ->
  sys_isdir git_dir w = true ->
  pass (Some sha) s =
  (Ret (Fallthrough, Some sha), with_world w s,
   [EvGet url headers 10 (HttpJson (Some sha)); EvIsdir git_dir true]).
Proof.
  intros Hget Hdir. unfold pass, poll_once, try_except, bind.
  rewrite fetch_latest_sha_eq. fold url. fold headers. rewrite Hget.
  cbn [fst snd]. unfold GitOps.is_git_repo, os_path_isdir. fold git_dir.
  cbn [world with_world]. rewrite Hdir. cbn [negb].
  rewrite String.eqb_refl. reflexivity.
Qed.

End PollerFacts.

(** The detector as [main] starts it: without a callback. *)
Section DetectorFacts.
Import Effects Observe Poller.
Context {W : Type} `{System W}.

Variables (repo local_path : string) (token : option string) (branch : string).
Variables (interval_seconds : Z) (owner repo_name : string).

Let url := commits_url owner repo_name branch.
Let headers := query_headers token.
Let git_dir := OsPath.join local_path ".git".
Let pass := poll_once repo local_path token branch interval_seconds None
              owner repo_name.

(** A new revision while tracking: the pass is a pull. *)
Lemma pass_pulls (sha last : string) (s : state W) w :
  sys_http_get url headers (world s) = (HttpJson (Some sha), w) ->
  sys_isdir git_dir w = true ->
  sha <> last ->
  let call := GitOps.pull local_path token (Some repo) (with_world w s) in
  pass (Some last) s =
  (Ret (Fallthrough, seen_after (result_of call) sha (Some last)),
   state_of call,
   [EvGet url headers 10 (HttpJson (Some sha)); EvIsdir git_dir true]
     ++ trace_of call)%list.
Proof.
  intros Hget Hdir Hne call. unfold pass, poll_once, try_except, bind.
  rewrite fetch_latest_sha_eq. fold url. fold headers. rewrite Hget.
  cbn [fst snd]. unfold GitOps.is_git_repo, os_path_isdir. fold git_dir.
  cbn [world with_world]. rewrite Hdir. cbn [negb].
  apply String.eqb_neq in Hne. rewrite Hne. cbn [negb].
  fold (with_world w s). fold call.
  unfold result_of, state_of, trace_of.
  destruct call as [[r s1] t1]. cbn [fst snd].
  destruct r as [[|]|e]; cbn; rewrite ?app_nil_r; reflexivity.
Qed.

(** No working copy yet: the pass is a clone. *)
Lemma pass_clones (sha : string) (last : option string) (s : state W) w :
  sys_http_get url headers (world s) = (HttpJson (Some sha), w) ->
  sys_isdir git_dir w = false ->
  let call := GitOps.clone repo local_path token branch (with_world w s) in
  pass last s =
  (Ret (Fallthrough, seen_after (result_of call) sha last),
   state_of call,
   [EvGet url headers 10 (HttpJson (Some sha)); EvIsdir git_dir false]
     ++ trace_of call)%list.
Proof.
  intros Hget Hdir call. unfold pass, poll_once, try_except, bind.
  rewrite fetch_latest_sha_eq. fold url. fold headers. rewrite Hget.
  cbn [fst snd]. unfold GitOps.is_git_repo, os_path_isdir. fold git_dir.
  cbn [world with_world]. rewrite Hdir. cbn [negb].
  fold (with_world w s). fold call.
  unfold result_of, state_of, trace_of.
  destruct call as [[r s1] t1]. cbn [fst snd].
  destruct r as [[|]|e]; cbn; rewrite ?app_nil_r; reflexivity.
Qed.

(** C10.  With a working copy in place and no last-seen revision, the
    first answer of the remote is adopted as last-seen, whatever the
    revision, and the pass consists of the query and the look at the
    working copy: the gateway is not called.  In a later pass with the
    working copy in place, the answer is compared with the revision
    adopted: when they are equal nothing happens, and when they differ
    the pass is a call of [pull]. *)
Theorem first_answer_adopted_without_pull (sha : string) (s : state W) w :
  sys_http_get url headers (world s) = (HttpJson (Some sha), w) ->
  sys_isdir git_dir w = true ->
  pass None s =
    (Ret (Fallthrough, Some sha), with_world w s,
     [EvGet url headers 10 (HttpJson (Some sha)); EvIsdir git_dir true]) /\
  (forall (sha' : string) (s' : state W) w',
      sys_http_get url headers (world s') = (HttpJson (Some sha'), w') ->
      sys_isdir git_dir w' = true ->
      let call := GitOps.pull local_path token (Some repo) (with_world w' s') in
      pass (Some sha) s' =
        if String.eqb sha' sha
        then (Ret (Fallthrough, Some sha), with_world w' s',
              [EvGet url headers 10 (HttpJson (Some sha')); EvIsdir git_dir true])
        else (Ret (Fallthrough, seen_after (result_of call) sha' (Some sha)),
              state_of call,
              [EvGet url headers 10 (HttpJson (Some sha')); EvIsdir git_dir true]
                ++ trace_of call)%list).
Proof.
  intros Hget Hdir. split.
  - now apply pass_adopts.
  - intros sha' s' w' Hget' Hdir' call.
    destruct (String.eqb_spec sha' sha) as [->|Hne].
    + now apply pass_unchanged.
    + now apply pass_pulls.
Qed.

End DetectorFacts.

(** The detector starts on a working copy left by an earlier run. *)
Lemma first_answer_adopted_without_pull_witness :
  Effects.result_of
    (Poller.poll_once "octo/mirror" "/srv/mirror" None "main" 60 None
       "octo" "mirror" None Scenario.already_cloned)
  = Effects.Ret (Poller.Fallthrough, Some "a1b2c3").
Proof.
  refine (f_equal Effects.result_of
            (proj1 (first_answer_adopted_without_pull
                      "octo/mirror" "/srv/mirror" None "main" 60 "octo" "mirror"
                      "a1b2c3" Scenario.already_cloned
                      (Sim.Sim ["/srv/mirror/.git"] [] Sim.git_ok) _ _)));
    reflexivity.
Defined.

(** C7, at the input on which the code departs from the claim.  The stop
    event is set one second after the start, with a poll interval of 60.
    When the query of the remote fails, the pass waits in [time.sleep],
    which the stop event does not interrupt, and the loop ends at time 60;
    when the query succeeds, the pass waits in [stop_event.wait] and the
    loop ends at time 1. *)
Theorem failed_query_sleeps_through_stop :
  let down :=
    Poller.poll_loop 3 "octo/mirror" "/srv/mirror" None "main" 60 None
      Scenario.remote_down_stop_at_1 in
  let up :=
    Poller.poll_loop 3 "octo/mirror" "/srv/mirror" None "main" 60 None
      Scenario.remote_up_stop_at_1 in
  (Effects.result_of down = Effects.Ret (Poller.Stopped None) /\
   Effects.clock (Effects.state_of down) = 60 /\
   Effects.trace_of down =
     [Effects.EvGet "https://api.github.com/repos/octo/mirror/commits/main"
        [("Accept", "application/vnd.github.v3+json")] 10
        Effects.HttpRequestError;
      Effects.EvSleep 60]) /\
  (Effects.result_of up = Effects.Ret (Poller.Stopped (Some "a1b2c3")) /\
   Effects.clock (Effects.state_of up) = 1 /\
   Effects.trace_of up =
     [Effects.EvGet "https://api.github.com/repos/octo/mirror/commits/main"
        [("Accept", "application/vnd.github.v3+json")] 10
        (Effects.HttpJson (Some "a1b2c3"));
      Effects.EvIsdir "/srv/mirror/.git" true;
      Effects.EvWait 60]).
Proof. vm_compute. repeat split. Qed.

Section LoopFacts.
Import Effects Observe Poller.
Context {W : Type} `{System W}.

Variables (repo local_path : string) (token : option string) (branch : string).
Variables (interval_seconds : Z) (on_pull : option (M W unit)).
Variables (owner repo_name : string).

Let pass := poll_once repo local_path token branch interval_seconds on_pull
              owner repo_name.
Let loop fuel := poll_while fuel repo local_path token branch interval_seconds
                   on_pull owner repo_name.

(** The loop ends as soon as it sees the stop event set. *)
Lemma poll_while_stopped fuel last (s : state W) :
  is_set_at s = true ->
  loop (S fuel) last s = (Ret (Stopped last), s, []).
Proof.
  intros Hset. unfold loop. cbn [poll_while]. unfold bind, stop_is_set.
  rewrite Hset. reflexivity.
Qed.

(** A pass that reaches the end of the [try] statement is followed by the
    interruptible wait and by the rest of the loop. *)
Lemma poll_while_fallthrough fuel last last' (s s1 : state W) t1 :
  is_set_at s = false ->
  pass last s = (Ret (Fallthrough, last'), s1, t1) ->
  let next := loop fuel last' (state_of (stop_wait interval_seconds s1)) in
  loop (S fuel) last s =
  (result_of next, state_of next,
   (t1 ++ EvWait interval_seconds :: trace_of next)%list).
Proof.
  intros Hset Hpass next. subst next. unfold loop, pass in *.
  cbn [poll_while]. unfold bind, stop_is_set. rewrite Hset, Hpass.
  unfold stop_wait, state_of, result_of, trace_of. cbn [fst snd].
  match goal with
  | |- context [poll_while fuel ?a ?b ?c ?d ?e ?f ?g ?h ?i ?j] =>
      destruct (poll_while fuel a b c d e f g h i j) as [[r s2] t2]
  end.
  reflexivity.
Qed.

(** A pass that ends at [continue] is followed by the rest of the loop at
    once: the interruptible wait is skipped. *)
Lemma poll_while_continue fuel last last' (s s1 : state W) t1 :
  is_set_at s = false ->
  pass last s = (Ret (Continue, last'), s1, t1) ->
  let next := loop fuel last' s1 in
  loop (S fuel) last s =
  (result_of next, state_of next, (t1 ++ trace_of next)%list).
Proof.
  intros Hset Hpass next. subst next. unfold loop, pass in *.
  cbn [poll_while]. unfold bind, stop_is_set. rewrite Hset, Hpass.
  unfold state_of, result_of, trace_of.
  match goal with
  | |- context [poll_while fuel ?a ?b ?c ?d ?e ?f ?g ?h ?i ?j] =>
      destruct (poll_while fuel a b c d e f g h i j) as [[r s2] t2]
  end.
  reflexivity.
Qed.

(** In every world: when the query fails and the stop event is set while
    the pass sleeps, the loop ends when the sleep is over, a full interval
    after the query, and not when the event is set. *)
Lemma failed_query_ends_after_sleep fuel last (s : state W) w stop :
  sys_http_get (commits_url owner repo_name branch) (query_headers token)
    (world s) = (HttpRequestError, w) ->
  stop_at s = Some stop ->
  clock s < stop <= clock s + interval_seconds ->
  loop (S (S fuel)) last s =
  (Ret (Stopped last), tick interval_seconds (with_world w s),
   [EvGet (commits_url owner repo_name branch) (query_headers token) 10
      HttpRequestError;
    EvSleep interval_seconds]).
Proof.
  intros Hget Hstop Hwhen.
  assert (Hpass := pass_query_failed repo local_path token branch
                     interval_seconds on_pull owner repo_name last s w Hget
                     ltac:(lia)).
  assert (Hset : is_set_at s = false).
  { unfold is_set_at. rewrite Hstop.
    destruct (Z.leb_spec stop (clock s)); [lia | reflexivity]. }
  rewrite (poll_while_continue (S fuel) last last s _ _ Hset Hpass).
  cbv zeta. rewrite poll_while_stopped.
  - reflexivity.
  - unfold is_set_at, tick, with_world. cbn [stop_at clock]. rewrite Hstop.
    destruct (Z.leb_spec stop (clock s + interval_seconds)); [reflexivity | lia].
Qed.

End LoopFacts.

(* ================================================================= *)
(** ** The detector in the scripted world *)

Section SimDetector.
Import Effects Observe Poller Sim.

Variables (repo local_path : string) (token : option string) (branch : string).
Variables (interval_seconds : Z) (owner repo_name : string).

Let git_dir := OsPath.join local_path ".git".
Let pass := poll_once repo local_path token branch interval_seconds None
              owner repo_name.
Let loop fuel := poll_while fuel repo local_path token branch interval_seconds
                   None owner repo_name.

(** A clone that succeeds leaves a working copy. *)
Lemma sim_clone replies cloned (s : state sim) :
  follows local_path replies cloned s ->
  exists s1 t1,
    GitOps.clone repo local_path token branch s = (Ret true, s1, t1) /\
    actions t1 = [Cloned] /\
    follows local_path replies true s1.
Proof.
  intros (Hstop & Hgit & Hrem & _).
  destruct s as [[ds rs g] c st]. cbn in Hstop, Hgit, Hrem. subst st g rs.
  eexists. eexists. split; [|split].
  - unfold GitOps.clone, GitOps._run_git, try_except, bind, os_makedirs,
      subprocess_run. cbn. reflexivity.
  - reflexivity.
  - repeat split. cbn. now rewrite String.eqb_refl.
Qed.

(** A pull that succeeds changes nothing in the scripted world. *)
Lemma sim_pull replies (s : state sim) :
  follows local_path replies true s ->
  exists s1 t1,
    GitOps.pull local_path token (Some repo) s = (Ret true, s1, t1) /\
    actions t1 = [Pulled] /\
    follows local_path replies true s1.
Proof.
  intros (Hstop & Hgit & Hrem & Hdir).
  destruct s as [[ds rs g] c st]. cbn in Hstop, Hgit, Hrem, Hdir. subst st g rs.
  unfold GitOps.pull, GitOps.refresh_remote, GitOps._set_remote_url.
  destruct (PyStr.truthy repo && PyStr.truthy_opt token).
  - eexists. eexists. split; [|split].
    + unfold GitOps._run_git, try_except, bind, subprocess_run. cbn. reflexivity.
    + reflexivity.
    + repeat split. exact Hdir.
  - eexists. eexists. split; [|split].
    + unfold GitOps._run_git, try_except, bind, subprocess_run. cbn. reflexivity.
    + reflexivity.
    + repeat split. exact Hdir.
Qed.

Lemma sim_query reply replies cloned (s : state sim) :
  follows local_path (reply :: replies) cloned s ->
  exists w,
    sys_http_get (commits_url owner repo_name branch) (query_headers token)
      (world s) = (reply, w) /\
    sys_isdir git_dir w = cloned /\
    follows local_path replies cloned (with_world w s).
Proof.
  intros (Hstop & Hgit & Hrem & Hdir).
  destruct s as [[ds rs g] c st]. cbn in Hstop, Hgit, Hrem, Hdir. subst st g rs.
  eexists. split; [reflexivity|]. split; [exact Hdir|].
  repeat split. exact Hdir.
Qed.

(** No working copy: the pass clones and adopts the revision. *)
Lemma sim_pass_clones sha replies last (s : state sim) :
  follows local_path (HttpJson (Some sha) :: replies) false s ->
  exists s1 t1,
    pass last s = (Ret (Fallthrough, Some sha), s1, t1) /\
    actions t1 = [Saw (HttpJson (Some sha)); Cloned] /\
    follows local_path replies true s1.
Proof.
  intros Hs. destruct (sim_query _ _ _ _ Hs) as (w & Hget & Hdir & Hw).
  destruct (sim_clone _ _ _ Hw) as (s1 & t1 & Hclone & Hact & Hs1).
  exists s1. eexists. split; [|split; [|exact Hs1]].
  - unfold pass.
    rewrite (pass_clones repo local_path token branch interval_seconds
               owner repo_name sha last s w Hget Hdir).
    cbv zeta. rewrite Hclone. reflexivity.
  - cbn [trace_of snd app]. unfold actions in *. cbn [flat_map action_of app].
    now rewrite Hact.
Qed.

(** The revision seen last: the pass does nothing. *)
Lemma sim_pass_unchanged sha replies (s : state sim) :
  follows local_path (HttpJson (Some sha) :: replies) true s ->
  exists s1 t1,
    pass (Some sha) s = (Ret (Fallthrough, Some sha), s1, t1) /\
    actions t1 = [Saw (HttpJson (Some sha))] /\
    follows local_path replies true s1.
Proof.
  intros Hs. destruct (sim_query _ _ _ _ Hs) as (w & Hget & Hdir & Hw).
  eexists. eexists. split; [|split; [|exact Hw]].
  - unfold pass.
    apply (pass_unchanged repo local_path token branch interval_seconds None
             owner repo_name sha s w Hget Hdir).
  - reflexivity.
Qed.

(** Another revision: the pass pulls and adopts it. *)
Lemma sim_pass_pulls sha last replies (s : state sim) :
  follows local_path (HttpJson (Some sha) :: replies) true s ->
  sha <> last ->
  exists s1 t1,
    pass (Some last) s = (Ret (Fallthrough, Some sha), s1, t1) /\
    actions t1 = [Saw (HttpJson (Some sha)); Pulled] /\
    follows local_path replies true s1.
Proof.
  intros Hs Hne. destruct (sim_query _ _ _ _ Hs) as (w & Hget & Hdir & Hw).
  destruct (sim_pull _ _ Hw) as (s1 & t1 & Hpull & Hact & Hs1).
  exists s1. eexists. split; [|split; [|exact Hs1]].
  - unfold pass.
    rewrite (pass_pulls repo local_path token branch interval_seconds
               owner repo_name sha last s w Hget Hdir Hne).
    cbv zeta. rewrite Hpull. reflexivity.
  - cbn [trace_of snd app]. unfold actions in *. cbn [flat_map action_of app].
    now rewrite Hact.
Qed.

(** One turn of the loop in the scripted world: the pass, the wait, and
    the rest of the loop. *)
Lemma sim_turn fuel last last' replies cloned (s s1 : state sim) t1 :
  follows local_path (replies) cloned s1 ->
  stop_at s = None ->
  pass last s = (Ret (Fallthrough, last'), s1, t1) ->
  exists s2,
    follows local_path replies cloned s2 /\
    result_of (loop (S fuel) last s) = result_of (loop fuel last' s2) /\
    actions (trace_of (loop (S fuel) last s))
    = (actions t1 ++ actions (trace_of (loop fuel last' s2)))%list.
Proof.
  intros Hs1 Hstop Hpass.
  exists (state_of (stop_wait interval_seconds s1)).
  assert (Hset : is_set_at s = false) by (unfold is_set_at; now rewrite Hstop).
  unfold loop.
  rewrite (poll_while_fallthrough repo local_path token branch
             interval_seconds None owner repo_name fuel last last' s s1 t1
             Hset Hpass).
  cbv zeta. cbn [result_of state_of trace_of fst snd].
  split; [|split; [reflexivity|]].
  - destruct Hs1 as (Hstop1 & Hgit & Hrem & Hdir).
    unfold stop_wait. rewrite Hstop1. cbn. repeat split; assumption.
  - unfold actions. rewrite flat_map_app. reflexivity.
Qed.

Lemma sim_turn_clones fuel sha replies last (s : state sim) :
  follows local_path (HttpJson (Some sha) :: replies) false s ->
  exists s2,
    follows local_path replies true s2 /\
    result_of (loop (S fuel) last s) = result_of (loop fuel (Some sha) s2) /\
    actions (trace_of (loop (S fuel) last s))
    = (Saw (HttpJson (Some sha)) :: Cloned
         :: actions (trace_of (loop fuel (Some sha) s2))).
Proof.
  intros Hs. destruct (sim_pass_clones sha replies last s Hs)
    as (s1 & t1 & Hpass & Hact & Hs1).
  destruct (sim_turn fuel _ _ _ _ s s1 t1 Hs1 (proj1 Hs) Hpass)
    as (s2 & Hs2 & Hres & Htr).
  exists s2. rewrite Htr, Hact. auto.
Qed.

Lemma sim_turn_unchanged fuel sha replies (s : state sim) :
  follows local_path (HttpJson (Some sha) :: replies) true s ->
  exists s2,
    follows local_path replies true s2 /\
    result_of (loop (S fuel) (Some sha) s) = result_of (loop fuel (Some sha) s2) /\
    actions (trace_of (loop (S fuel) (Some sha) s))
    = (Saw (HttpJson (Some sha))
         :: actions (trace_of (loop fuel (Some sha) s2))).
Proof.
  intros Hs. destruct (sim_pass_unchanged sha replies s Hs)
    as (s1 & t1 & Hpass & Hact & Hs1).
  destruct (sim_turn fuel _ _ _ _ s s1 t1 Hs1 (proj1 Hs) Hpass)
    as (s2 & Hs2 & Hres & Htr).
  exists s2. rewrite Htr, Hact. auto.
Qed.

Lemma sim_turn_pulls fuel sha last replies (s : state sim) :
  follows local_path (HttpJson (Some sha) :: replies) true s ->
  sha <> last ->
  exists s2,
    follows local_path replies true s2 /\
    result_of (loop (S fuel) (Some last) s) = result_of (loop fuel (Some sha) s2) /\
    actions (trace_of (loop (S fuel) (Some last) s))
    = (Saw (HttpJson (Some sha)) :: Pulled
         :: actions (trace_of (loop fuel (Some sha) s2))).
Proof.
  intros Hs Hne. destruct (sim_pass_pulls sha last replies s Hs Hne)
    as (s1 & t1 & Hpass & Hact & Hs1).
  destruct (sim_turn fuel _ _ _ _ s s1 t1 Hs1 (proj1 Hs) Hpass)
    as (s2 & Hs2 & Hres & Htr).
  exists s2. rewrite Htr, Hact. auto.
Qed.

(** The five passes over the revisions [a], [a], [b], [b], [a]. *)
Lemma sim_five_passes (a b : string) :
  a <> b ->
  actions (trace_of (loop 5 None (Scenario.revisions a b)))
  = [Saw (HttpJson (Some a)); Cloned;
     Saw (HttpJson (Some a));
     Saw (HttpJson (Some b)); Pulled;
     Saw (HttpJson (Some b));
     Saw (HttpJson (Some a)); Pulled] /\
  result_of (loop 1 None (Scenario.revisions a b)) = Ret (Running (Some a)) /\
  result_of (loop 5 None (Scenario.revisions a b)) = Ret (Running (Some a)).
Proof.
  intros Hab.
  assert (H0 : follows local_path
                 [HttpJson (Some a); HttpJson (Some a); HttpJson (Some b);
                  HttpJson (Some b); HttpJson (Some a)]
                 false (Scenario.revisions a b)) by (repeat split).
  split; [|split].
  - destruct (sim_turn_clones 4 _ _ None _ H0) as (s1 & H1 & _ & ->).
    destruct (sim_turn_unchanged 3 _ _ _ H1) as (s2 & H2 & _ & ->).
    destruct (sim_turn_pulls 2 b a _ _ H2 (not_eq_sym Hab)) as (s3 & H3 & _ & ->).
    destruct (sim_turn_unchanged 1 _ _ _ H3) as (s4 & H4 & _ & ->).
    destruct (sim_turn_pulls 0 a b _ _ H4 Hab) as (s5 & H5 & _ & ->).
    reflexivity.
  - destruct (sim_turn_clones 0 _ _ None _ H0) as (s1 & H1 & -> & _).
    reflexivity.
  - destruct (sim_turn_clones 4 _ _ None _ H0) as (s1 & H1 & -> & _).
    destruct (sim_turn_unchanged 3 _ _ _ H1) as (s2 & H2 & -> & _).
    destruct (sim_turn_pulls 2 b a _ _ H2 (not_eq_sym Hab)) as (s3 & H3 & -> & _).
    destruct (sim_turn_unchanged 1 _ _ _ H3) as (s4 & H4 & -> & _).
    destruct (sim_turn_pulls 0 a b _ _ H4 Hab) as (s5 & H5 & -> & _).
    reflexivity.
Qed.

End SimDetector.

(** C2.  The detector starts without a working copy and sees the remote
    at the revisions [a], [a], [b], [b], [a], one per pass, with [a] and
    [b] different and every query and every [git] command succeeding.
    Then the gateway is called three times: a clone in the first pass,
    after which [a] is the last-seen revision, a pull in the third pass,
    when [b] is seen first, and a pull in the fifth, when [a] is seen
    again; the second and the fourth pass, which see the revision of the
    pass before, call nothing. *)
Theorem five_observations_one_clone_two_pulls
    (repo local_path : string) (token : option string) (branch : string)
    (interval_seconds : Z) (a b : string) :
  a <> b ->
  OsPath.has_slash (Poller._normalize_repo repo) = true ->
  Observe.actions
    (Effects.trace_of
       (Poller.poll_loop 5 repo local_path token branch interval_seconds None
          (Scenario.revisions a b)))
  = [Observe.Saw (Effects.HttpJson (Some a)); Observe.Cloned;
     Observe.Saw (Effects.HttpJson (Some a));
     Observe.Saw (Effects.HttpJson (Some b)); Observe.Pulled;
     Observe.Saw (Effects.HttpJson (Some b));
     Observe.Saw (Effects.HttpJson (Some a)); Observe.Pulled] /\
  Effects.result_of
    (Poller.poll_loop 1 repo local_path token branch interval_seconds None
       (Scenario.revisions a b))
  = Effects.Ret (Poller.Running (Some a)) /\
  Effects.result_of
    (Poller.poll_loop 5 repo local_path token branch interval_seconds None
       (Scenario.revisions a b))
  = Effects.Ret (Poller.Running (Some a)).
Proof.
  intros Hab Hslash. unfold Poller.poll_loop. rewrite Hslash. cbn [negb].
  destruct (Poller.split_once (Poller._normalize_repo repo)) as [owner repo_name].
  now apply sim_five_passes.
Qed.

(** The revisions [a1b2c3] and [d4e5f6] of [octo/mirror]. *)
Lemma five_observations_one_clone_two_pulls_witness :
  Observe.actions
    (Effects.trace_of
       (Poller.poll_loop 5 "octo/mirror" "/srv/mirror" None "main" 60 None
          (Scenario.revisions "a1b2c3" "d4e5f6")))
  = [Observe.Saw (Effects.HttpJson (Some "a1b2c3")); Observe.Cloned;
     Observe.Saw (Effects.HttpJson (Some "a1b2c3"));
     Observe.Saw (Effects.HttpJson (Some "d4e5f6")); Observe.Pulled;
     Observe.Saw (Effects.HttpJson (Some "d4e5f6"));
     Observe.Saw (Effects.HttpJson (Some "a1b2c3")); Observe.Pulled].
Proof.
  refine (proj1 (five_observations_one_clone_two_pulls
                   "octo/mirror" "/srv/mirror" None "main" 60
                   "a1b2c3" "d4e5f6" _ _)).
  - discriminate.
  - reflexivity.
Defined.

(* ================================================================= *)
(** * Further properties of the code *)

(** ** Strings *)

Section StringFacts.
Import PyStr.

Lemma prefix_contains old s : String.prefix old s = true -> contains old s = true.
Proof. intros Hp. destruct s; cbn [contains]; now rewrite Hp. Qed.

(** Without an occurrence there is nothing to replace. *)
Lemma replace_fuel_absent fuel old new s :
  contains old s = false -> replace_fuel fuel old new s = s.
Proof.
  revert s. induction fuel as [|fuel IH]; intros s Habs; [reflexivity|].
  destruct s as [|c s]; [reflexivity|].
  cbn [contains] in Habs. apply orb_false_elim in Habs. destruct Habs as [Hp Hs].
  cbn [replace_fuel]. rewrite Hp. now rewrite IH.
Qed.

(** A prefix [old] of [s ++ c :: t] either lies within [s] or goes through
    the character [c]. *)
Lemma prefix_app_char old s c t :
  String.prefix old (s ++ String c t) = true ->
  String.prefix old s = true \/ In c (list_ascii_of_string old).
Proof.
  revert s. induction old as [|a old IH]; intros s; [left; now destruct s|].
  destruct s as [|b s]; cbn [append String.prefix list_ascii_of_string].
  - destruct (ascii_dec a c) as [->|]; [|discriminate]. intros _. right. now left.
  - destruct (ascii_dec a b) as [->|]; [|discriminate]. intros Hp.
    destruct (IH s Hp) as [Hs|Hin]; [now left | right; now right].
Qed.

(** Appending a text that begins with a character foreign to [old] adds
    no occurrence of [old], as long as the text itself holds none. *)
Lemma contains_app_foreign old s c t :
  ~ In c (list_ascii_of_string old) ->
  contains old s = false ->
  contains old (String c t) = false ->
  contains old (s ++ String c t) = false.
Proof.
  intros Hc. induction s as [|b s IH]; intros Hs Ht; [exact Ht|].
  cbn [contains] in Hs. apply orb_false_elim in Hs. destruct Hs as [Hp Hs].
  cbn [append contains]. rewrite (IH Hs Ht), orb_false_r.
  destruct (String.prefix old (String b (s ++ String c t))) eqn:E; [|reflexivity].
  destruct (prefix_app_char old (String b s) c t E) as [Hin|Hin].
  - congruence.
  - contradiction.
Qed.

Lemma length_append (a b : string) :
  String.length (a ++ b) = (String.length a + String.length b)%nat.
Proof. induction a as [|x a IH]; cbn; [reflexivity | now rewrite IH]. Qed.

End StringFacts.

(* ================================================================= *)
(** ** Remote URLs: [_repo_url_with_token] *)

Section UrlFacts.
Import PyStr GitOps.

Lemma prefix_app_self a b : String.prefix a (a ++ b) = true.
Proof.
  induction a as [|x a IH]; cbn [append String.prefix]; [now destruct b|].
  destruct (ascii_dec x x); [exact IH | contradiction].
Qed.

Lemma drop_app_self a b : drop (String.length a) (a ++ b) = b.
Proof. induction a as [|x a IH]; [reflexivity | exact IH]. Qed.

(** An occurrence at the head is replaced, and the scan goes on behind it. *)
Lemma replace_fuel_hit fuel old new rest :
  old <> "" ->
  replace_fuel (S fuel) old new (old ++ rest)
  = new ++ replace_fuel fuel old new rest.
Proof.
  intros Hold. pose proof (prefix_app_self old rest) as Hp.
  pose proof (drop_app_self old rest) as Hd.
  destruct (old ++ rest) as [|c s] eqn:E.
  - destruct old; [contradiction | discriminate].
  - cbn [replace_fuel]. now rewrite Hp, Hd.
Qed.

(** The token goes in once, behind the scheme. *)
Lemma embed_token_once rest tok :
  truthy tok = true ->
  contains "github.com" rest = true ->
  contains "https://" rest = false ->
  embed_token ("https://" ++ rest) (Some tok) = "https://" ++ tok ++ "@" ++ rest.
Proof.
  intros Htok Hhost Habs. unfold embed_token. rewrite Htok.
  assert (Hurl : contains "github.com" ("https://" ++ rest) = true).
  { cbn -[contains] in *. cbn. exact Hhost. }
  rewrite Hurl. cbn [andb]. unfold replace.
  rewrite length_append.
  change (String.length "https://" + String.length rest)%nat
    with (S (7 + String.length rest)).
  rewrite replace_fuel_hit by discriminate.
  rewrite replace_fuel_absent by assumption.
  now rewrite !append_assoc.
Qed.

Lemma no_scheme_in_shorthand r :
  contains "https://" r = false ->
  contains "https://" ("github.com/" ++ r ++ ".git") = false.
Proof.
  intros Habs.
  assert (Hgit : contains "https://" (r ++ ".git") = false).
  { apply contains_app_foreign; [|assumption|reflexivity].
    cbn. intros H. repeat (destruct H as [H|H]; [discriminate H|]). exact H. }
  cbn -[contains append]. cbn -[append]. exact Hgit.
Qed.

(** X1.  With a token, the URL carries the token once, between the scheme
    and the host: an HTTPS URL of github.com is the URL given with the
    token put in, and the shorthand [owner/repo] becomes
    [https://<token>@github.com/owner/repo.git].  (The URL given is taken
    without surrounding whitespace and holds no ["https://"] behind its
    scheme.) *)
Theorem token_embedded_once (repo tok rest : string) :
  truthy tok = true ->
  contains "https://" rest = false ->
  (strip repo = "https://" ++ rest ->
   contains "github.com" rest = true ->
   _repo_url_with_token repo (Some tok) = "https://" ++ tok ++ "@" ++ rest) /\
  (strip repo = rest ->
   startswith rest "git@" = false ->
   _repo_url_with_token repo (Some tok)
   = "https://" ++ tok ++ "@github.com/" ++ rest ++ ".git").
Proof.
  intros Htok Habs. split.
  - intros Hrepo Hhost. unfold _repo_url_with_token. rewrite Hrepo.
    unfold startswith. rewrite prefix_app_self.
    now apply embed_token_once.
  - intros Hrepo Hssh. unfold _repo_url_with_token. rewrite Hrepo, Hssh.
    assert (Hpre : startswith rest "https://" = false).
    { unfold startswith. destruct (String.prefix "https://" rest) eqn:E;
        [|reflexivity]. apply prefix_contains in E. congruence. }
    rewrite Hpre.
    change ("https://github.com/" ++ rest ++ ".git")
      with ("https://" ++ ("github.com/" ++ rest ++ ".git")).
    rewrite embed_token_once; [reflexivity | assumption | reflexivity |].
    now apply no_scheme_in_shorthand.
Qed.

(** X2.  An SSH URL, and an HTTPS URL of a host other than github.com, are
    handed back as they are, without surrounding whitespace: the token is
    left out of them, whatever it is. *)
Theorem token_left_out (repo : string) (token : option string) :
  startswith (strip repo) "git@" = true \/
  (startswith (strip repo) "https://" = true /\
   contains "github.com" (strip repo) = false) ->
  _repo_url_with_token repo token = strip repo.
Proof.
  unfold _repo_url_with_token, startswith.
  set (r := strip repo). intros [Hssh | [Hhttps Hhost]].
  - rewrite Hssh.
    assert (Hpre : String.prefix "https://" r = false).
    { destruct r as [|c r']; [discriminate|]. cbn [String.prefix] in *.
      destruct (ascii_dec "g" c) as [<-|]; [|discriminate]. reflexivity. }
    now rewrite Hpre.
  - rewrite Hhttps. unfold embed_token. rewrite Hhost.
    destruct token as [tok|]; [|reflexivity].
    now rewrite andb_false_r.
Qed.

End UrlFacts.

(** The repository [octo/mirror] and the token [s3cr3t]. *)
Lemma token_embedded_once_witness :
  GitOps._repo_url_with_token " octo/mirror " (Some "s3cr3t")
  = "https://s3cr3t@github.com/octo/mirror.git".
Proof.
  refine (proj2 (token_embedded_once " octo/mirror " "s3cr3t" "octo/mirror" _ _)
            _ _); reflexivity.
Defined.

(** An SSH URL and a token. *)
Lemma token_left_out_witness :
  GitOps._repo_url_with_token "git@github.com:octo/mirror.git" (Some "s3cr3t")
  = "git@github.com:octo/mirror.git".
Proof.
  refine (token_left_out "git@github.com:octo/mirror.git" (Some "s3cr3t") _).
  left. reflexivity.
Defined.

(* ================================================================= *)
(** ** Repository names: [_normalize_repo] *)

Section NormalizeFacts.
Import PyStr Poller.

(** A greedy class takes the whole of [a] and stops in front of [b]. *)
Lemma span_stops p a b :
  all_chars p a = true -> stops p b = true -> span p (a ++ b) = (a, b).
Proof.
  intros Ha Hb. induction a as [|c a IH]; cbn [append].
  - destruct b as [|c b]; [reflexivity|]. cbn in Hb. cbn [span].
    apply negb_true_iff in Hb. now rewrite Hb.
  - cbn [all_chars] in Ha. apply andb_prop in Ha. destruct Ha as [Hc Ha].
    cbn [span]. rewrite Hc, (IH Ha). reflexivity.
Qed.

(** The two groups of [owner/name], whatever comes behind the name. *)
Lemma match_groups_found second owner name tail :
  owner <> "" -> all_chars not_slash owner = true ->
  name <> "" -> all_chars second name = true -> stops second tail = true ->
  match_groups second (owner ++ "/" ++ name ++ tail) = Some (owner, name).
Proof.
  intros Ho Hos Hn Hns Ht. unfold match_groups.
  change (owner ++ "/" ++ name ++ tail)
    with (owner ++ String "/" (name ++ tail)).
  rewrite (span_stops not_slash owner (String "/" (name ++ tail)) Hos eq_refl).
  destruct owner as [|c owner]; [contradiction|].
  rewrite (span_stops second name tail Hns Ht).
  destruct name; [contradiction | reflexivity].
Qed.

Lemma match_https_found (secure : bool) owner name tail :
  owner <> "" -> all_chars not_slash owner = true ->
  name <> "" -> all_chars name_char name = true -> stops name_char tail = true ->
  match_https ((if secure then "https" else "http") ++ "://github.com/"
                 ++ owner ++ "/" ++ name ++ tail)
  = Some (owner, name).
Proof.
  intros Ho Hos Hn Hns Ht. unfold match_https.
  destruct secure; cbn -[match_groups append];
    apply (match_groups_found name_char); assumption.
Qed.

(** X3.  An HTTP or HTTPS URL of github.com is normalised to
    [owner/name]: the owner is what stands up to the next slash, the name
    what follows up to the next slash or dot, and whatever comes behind
    ([.git], a path, or the rest of a name with a dot in it) is dropped. *)
Theorem https_url_normalized (repo owner name tail : string) (secure : bool) :
  strip repo = (if secure then "https" else "http") ++ "://github.com/"
                 ++ owner ++ "/" ++ name ++ tail ->
  owner <> "" -> all_chars not_slash owner = true ->
  name <> "" -> all_chars name_char name = true -> stops name_char tail = true ->
  _normalize_repo repo = owner ++ "/" ++ name.
Proof.
  intros Hrepo Ho Hos Hn Hns Ht. unfold _normalize_repo.
  rewrite Hrepo, match_https_found by assumption. reflexivity.
Qed.

Lemma prefix_split a s : String.prefix a s = true -> exists x, s = a ++ x.
Proof.
  revert s. induction a as [|c a IH]; intros s Hp; [now exists s|].
  destruct s as [|b s]; [discriminate|]. cbn [String.prefix] in Hp.
  destruct (ascii_dec c b) as [->|]; [|discriminate].
  destruct (IH s Hp) as [x ->]. now exists x.
Qed.

Lemma rstrip_app_kept a b : b <> "" -> rstrip b = b -> rstrip (a ++ b) = a ++ b.
Proof.
  intros Hb Hr. induction a as [|c a IH]; [exact Hr|].
  cbn [append rstrip]. rewrite IH.
  destruct (a ++ b) eqn:E; [|reflexivity].
  destruct a; [contradiction | discriminate].
Qed.

(** The shorthand [owner/name] is no URL: its first slash is not followed
    by a second one. *)
Lemma shorthand_first_slash owner name x y :
  all_chars not_slash owner = true -> all_chars name_char name = true ->
  name <> "" ->
  all_chars not_slash x = true ->
  owner ++ "/" ++ name <> x ++ "//" ++ y.
Proof.
  intros Ho Hn Hne Hx Heq.
  assert (H1 : span not_slash (owner ++ "/" ++ name) = (owner, "/" ++ name))
    by (now apply span_stops).
  assert (H2 : span not_slash (x ++ "//" ++ y) = (x, "//" ++ y))
    by (now apply span_stops).
  rewrite Heq, H2 in H1. apply (f_equal snd) in H1. cbn in H1.
  injection H1 as H1. subst name. discriminate Hn.
Qed.

Lemma shorthand_not_https owner name :
  all_chars not_slash owner = true -> all_chars name_char name = true ->
  name <> "" ->
  String.prefix "https://" (owner ++ "/" ++ name) = false.
Proof.
  intros Ho Hn Hne.
  destruct (String.prefix "https://" (owner ++ "/" ++ name)) eqn:E;
    [|reflexivity].
  apply prefix_split in E. destruct E as [x E]. exfalso.
  apply (shorthand_first_slash owner name "https:" x Ho Hn Hne eq_refl).
  exact E.
Qed.

Lemma shorthand_no_match owner name :
  all_chars not_slash owner = true -> all_chars name_char name = true ->
  name <> "" ->
  match_https (owner ++ "/" ++ name) = None.
Proof.
  intros Ho Hn Hne. unfold match_https.
  destruct (strip_prefix "http" (owner ++ "/" ++ name)) as [s1|] eqn:E1;
    [|reflexivity].
  apply strip_prefix_app in E1.
  match goal with
  | |- match strip_prefix ?p ?s2 with _ => _ end = None =>
      destruct (strip_prefix p s2) as [s3|] eqn:E2; [|reflexivity]
  end.
  apply strip_prefix_app in E2. exfalso.
  destruct s1 as [|c s1].
  - discriminate E2.
  - destruct (Ascii.eqb_spec c "s") as [->|Hc].
    + subst s1.
      apply (shorthand_first_slash owner name "https:" ("github.com/" ++ s3)
               Ho Hn Hne eq_refl).
      exact E1.
    + assert (Hs2 : String c s1 = "://github.com/" ++ s3).
      { rewrite <- E2. destruct c as [[] [] [] [] [] [] [] []];
          try reflexivity. now elim Hc. }
      rewrite Hs2 in E1.
      apply (shorthand_first_slash owner name "http:" ("github.com/" ++ s3)
               Ho Hn Hne eq_refl).
      exact E1.
Qed.

(** X4.  The shorthand [owner/name] and the clone URL made of it name the
    same repository: the detector normalises both to [owner/name].  (The
    owner holds no slash, the name neither slash nor dot, and the
    shorthand neither surrounding whitespace nor the prefix [git@].) *)
Theorem shorthand_round_trip (owner name : string) :
  let shorthand := owner ++ "/" ++ name in
  owner <> "" -> all_chars not_slash owner = true ->
  name <> "" -> all_chars name_char name = true ->
  strip shorthand = shorthand ->
  startswith shorthand "git@" = false ->
  _normalize_repo shorthand = shorthand /\
  GitOps._repo_url_with_token shorthand None
  = "https://github.com/" ++ shorthand ++ ".git" /\
  _normalize_repo (GitOps._repo_url_with_token shorthand None) = shorthand.
Proof.
  intros shorthand Ho Hos Hn Hns Hstrip Hssh. subst shorthand.
  assert (Hurl : GitOps._repo_url_with_token (owner ++ "/" ++ name) None
                 = "https://github.com/" ++ (owner ++ "/" ++ name) ++ ".git").
  { unfold GitOps._repo_url_with_token. rewrite Hstrip, Hssh.
    unfold startswith. now rewrite shorthand_not_https. }
  split; [|split; [exact Hurl|]].
  - unfold _normalize_repo. rewrite Hstrip, Hssh.
    now rewrite shorthand_no_match.
  - rewrite Hurl. unfold _normalize_repo.
    assert (Hs : strip ("https://github.com/" ++ (owner ++ "/" ++ name) ++ ".git")
                 = "https://github.com/" ++ owner ++ "/" ++ name ++ ".git").
    { unfold strip. cbn [append lstrip].
      change (is_space "h") with false. cbv iota.
      change (String "h" (String "t" (String "t" (String "p" (String "s"
                (String ":" (String "/" (String "/" (String "g" (String "i"
                (String "t" (String "h" (String "u" (String "b" (String "."
                (String "c" (String "o" (String "m" (String "/"
                ((owner ++ String "/" name) ++ ".git"))))))))))))))))))))
        with (("https://github.com/" ++ owner ++ "/" ++ name) ++ ".git").
      rewrite rstrip_app_kept by (discriminate || reflexivity).
      now rewrite !append_assoc. }
    rewrite Hs.
    pose proof (match_https_found true owner name ".git" Ho Hos Hn Hns eq_refl)
      as Hm.
    change ((if true then "https" else "http") ++ "://github.com/"
              ++ owner ++ "/" ++ name ++ ".git")
      with ("https://github.com/" ++ owner ++ "/" ++ name ++ ".git") in Hm.
    now rewrite Hm.
Qed.

Lemma search_ssh_found owner name tail :
  owner <> "" -> all_chars not_slash owner = true ->
  name <> "" -> all_chars not_dot name = true -> stops not_dot tail = true ->
  search_ssh ("git@github.com:" ++ owner ++ "/" ++ name ++ tail)
  = Some (owner, name).
Proof.
  intros Ho Hos Hn Hns Ht.
  pose proof (match_groups_found not_dot owner name tail Ho Hos Hn Hns Ht) as Hm.
  cbn -[match_groups] in Hm |- *. now rewrite Hm.
Qed.

(** X5.  The SSH URL [git@github.com:owner/name...] is normalised to
    [owner/name] as well: the owner is what stands between the colon and
    the next slash, the name what follows up to the next dot, slashes
    included. *)
Theorem ssh_url_normalized (repo owner name tail : string) :
  strip repo = "git@github.com:" ++ owner ++ "/" ++ name ++ tail ->
  owner <> "" -> all_chars not_slash owner = true ->
  name <> "" -> all_chars not_dot name = true -> stops not_dot tail = true ->
  _normalize_repo repo = owner ++ "/" ++ name.
Proof.
  intros Hrepo Ho Hos Hn Hns Ht. unfold _normalize_repo. rewrite Hrepo.
  rewrite search_ssh_found by assumption. reflexivity.
Qed.

End NormalizeFacts.

(** The repository [octo/mirror]. *)
Lemma shorthand_round_trip_witness :
  Poller._normalize_repo (GitOps._repo_url_with_token "octo/mirror" None)
  = "octo/mirror".
Proof.
  refine (proj2 (proj2 (shorthand_round_trip "octo" "mirror" _ _ _ _ _ _)));
    reflexivity || discriminate.
Defined.

(** An SSH URL with a path below the repository. *)
Lemma ssh_url_normalized_witness :
  Poller._normalize_repo "git@github.com:octo/mirror/sub.git" = "octo/mirror/sub".
Proof.
  refine (ssh_url_normalized "git@github.com:octo/mirror/sub.git"
            "octo" "mirror/sub" ".git" _ _ _ _ _ _);
    reflexivity || discriminate.
Defined.

(** A repository whose name has a dot in it. *)
Lemma https_url_normalized_witness :
  Poller._normalize_repo "https://github.com/octo/mirror.py.git" = "octo/mirror".
Proof.
  refine (https_url_normalized "https://github.com/octo/mirror.py.git"
            "octo" "mirror" ".py.git" true _ _ _ _ _ _);
    reflexivity || discriminate.
Defined.

Section RejectedNames.
Import PyStr Poller Effects.

Lemma has_slash_app a b :
  OsPath.has_slash (a ++ b) = OsPath.has_slash a || OsPath.has_slash b.
Proof.
  induction a as [|c a IH]; [reflexivity|].
  cbn [append OsPath.has_slash]. now rewrite IH, orb_assoc.
Qed.

Lemma lstrip_no_slash s :
  OsPath.has_slash s = false -> OsPath.has_slash (lstrip s) = false.
Proof.
  induction s as [|c s IH]; [reflexivity|]. intros Hs. cbn [lstrip].
  destruct (is_space c); [|exact Hs].
  cbn [OsPath.has_slash] in Hs. apply orb_false_elim in Hs. now apply IH.
Qed.

Lemma rstrip_no_slash s :
  OsPath.has_slash s = false -> OsPath.has_slash (rstrip s) = false.
Proof.
  induction s as [|c s IH]; [reflexivity|]. intros Hs.
  cbn [OsPath.has_slash] in Hs. apply orb_false_elim in Hs.
  destruct Hs as [Hc Hs]. cbn [rstrip]. specialize (IH Hs).
  destruct (rstrip s) as [|d r].
  - destruct (is_space c); [reflexivity|]. cbn. now rewrite Hc.
  - cbn [OsPath.has_slash] in *. now rewrite Hc, IH.
Qed.

Lemma span_split p s : s = fst (span p s) ++ snd (span p s).
Proof.
  induction s as [|c s IH]; [reflexivity|]. cbn [span].
  destruct (p c); [|reflexivity].
  destruct (span p s) as [a b]. cbn [fst snd append] in *. now rewrite <- IH.
Qed.

Lemma match_groups_needs_slash second s :
  OsPath.has_slash s = false -> match_groups second s = None.
Proof.
  intros Hs. unfold match_groups.
  pose proof (span_split not_slash s) as Hsplit.
  destruct (span not_slash s) as [g1 rest]. cbn [fst snd] in Hsplit.
  destruct g1 as [|c g1]; [reflexivity|].
  destruct rest as [|d rest]; [reflexivity|].
  destruct (Ascii.eqb_spec d "/") as [->|Hd].
  - rewrite Hsplit, has_slash_app in Hs. cbn in Hs.
    now rewrite orb_true_r in Hs.
  - destruct d as [[] [] [] [] [] [] [] []]; try reflexivity. now elim Hd.
Qed.

Lemma match_https_needs_slash s :
  OsPath.has_slash s = false -> match_https s = None.
Proof.
  intros Hs. unfold match_https.
  destruct (strip_prefix "http" s) as [s1|] eqn:E1; [|reflexivity].
  apply strip_prefix_app in E1.
  match goal with
  | |- match strip_prefix ?p ?s2 with _ => _ end = None =>
      destruct (strip_prefix p s2) as [s3|] eqn:E2; [|reflexivity]
  end.
  apply strip_prefix_app in E2. exfalso.
  assert (H1 : OsPath.has_slash s1 = true).
  { destruct s1 as [|c s1]; [discriminate E2|].
    destruct (Ascii.eqb_spec c "s") as [->|Hc].
    - subst s1. reflexivity.
    - assert (Hs2 : String c s1 = "://github.com/" ++ s3).
      { rewrite <- E2. destruct c as [[] [] [] [] [] [] [] []];
          try reflexivity. now elim Hc. }
      rewrite Hs2. reflexivity. }
  rewrite E1, has_slash_app, H1 in Hs. now rewrite orb_true_r in Hs.
Qed.

Lemma search_ssh_needs_slash s :
  OsPath.has_slash s = false -> search_ssh s = None.
Proof.
  induction s as [|c s IH]; intros Hs; [reflexivity|].
  cbn [search_ssh].
  assert (Hhere : match strip_prefix "github.com:" (String c s) with
                  | Some s1 => match_groups not_dot s1
                  | None => None
                  end = None).
  { destruct (strip_prefix "github.com:" (String c s)) as [s1|] eqn:E;
      [|reflexivity].
    apply strip_prefix_app in E. apply match_groups_needs_slash.
    rewrite E, has_slash_app in Hs. now apply orb_false_elim in Hs. }
  rewrite Hhere. apply IH.
  cbn [OsPath.has_slash] in Hs. now apply orb_false_elim in Hs.
Qed.

Lemma normalize_no_slash repo :
  OsPath.has_slash repo = false ->
  OsPath.has_slash (_normalize_repo repo) = false.
Proof.
  intros Hs.
  assert (Hr : OsPath.has_slash (strip repo) = false)
    by (unfold strip; now apply rstrip_no_slash, lstrip_no_slash).
  unfold _normalize_repo.
  rewrite (match_https_needs_slash _ Hr), (search_ssh_needs_slash _ Hr).
  now destruct (startswith (strip repo) "git@").
Qed.

Context {W : Type} `{System W}.

(** X6.  A repository identifier without any slash is refused: the
    detector returns at once, whatever the world and however many passes
    it is allowed, without a query, a call of [git] or a wait. *)
Theorem repo_without_slash_refused
    (fuel : nat) (repo local_path : string) (token : option string)
    (branch : string) (interval_seconds : Z) (on_pull : option (M W unit))
    (s : state W) :
  OsPath.has_slash repo = false ->
  poll_loop fuel repo local_path token branch interval_seconds on_pull s
  = (Ret InvalidRepo, s, []).
Proof.
  intros Hs. unfold poll_loop. now rewrite (normalize_no_slash repo Hs).
Qed.

End RejectedNames.

(** A repository named without its owner. *)
Lemma repo_without_slash_refused_witness :
  Poller.poll_loop 10 "mirror" "/srv/mirror" None "main" 60 None
    Scenario.already_cloned
  = (Effects.Ret Poller.InvalidRepo, Scenario.already_cloned, []).
Proof.
  apply (repo_without_slash_refused 10 "mirror" "/srv/mirror" None "main" 60
           None Scenario.already_cloned).
  reflexivity.
Defined.

(* ================================================================= *)
(** ** Exceptions *)

Section ExceptionFacts.
Import Effects GitOps Observe.
Context {W : Type} `{System W}.







End ExceptionFacts.


Section GatewayExceptions.
Import Effects GitOps Observe.
Context {W : Type} `{System W}.




End GatewayExceptions.


Section LoopExceptions.
Import Effects GitOps Observe Watcher Poller.
Context {W : Type} `{System W}.



Variables (repo local_path : string) (token : option string) (branch : string).
Variables (interval_seconds : Z) (on_pull : option (M W unit)).




End LoopExceptions.


(* ================================================================= *)
(** ** What the gateway answers *)

Section GatewayAnswers.
Import Effects GitOps Observe.
Context {W : Type} `{System W}.

Lemma Exists_existsb {A} (f : A -> bool) (l : list A) :
  Exists (fun x => f x = true) l <-> existsb f l = true.
Proof.
  rewrite Exists_exists, existsb_exists. reflexivity.
Qed.

(** X10.  [clone] answers success exactly when one of its [git clone]
    calls ended with return code 0, and it tries the clone without a
    branch only after the clone of the named branch has failed with the
    diagnostic of a missing branch: not after a timeout, and not after
    any other failure. *)
Theorem clone_answer
    (repo local_path : string) (token : option string) (branch : string)
    (s : state W) (b : bool) :
  result_of (clone repo local_path token branch s) = Ret b ->
  (b = true <->
   Exists (fun ev => clone_ok ev = true)
          (trace_of (clone repo local_path token branch s))) /\
  (Exists (fun ev => default_clone ev = true)
          (trace_of (clone repo local_path token branch s)) ->
   Exists (fun ev => named_clone_missed ev = true)
          (trace_of (clone repo local_path token branch s))).
Proof.
  unfold clone, _run_git, try_except, bind, os_makedirs, subprocess_run,
    result_of, trace_of, ret, git_timeout.
  rewrite !Exists_existsb.
  destruct (sys_makedirs _ (world s)) as [[[]|e] w1];
    cbn [fst snd world with_world]; [|discriminate].
  repeat
    (match goal with
     | |- context [sys_spawn ?a ?c ?e ?w] =>
         destruct (sys_spawn a c e w) as [[? ? ? ?| |] ?]
     | |- context [120 <? ?x] => destruct (120 <? x)
     | |- context [?x =? 0] => destruct (x =? 0) eqn:?
     | |- context [PyStr.contains "not found" ?x || ?y] =>
         destruct (PyStr.contains "not found" x || y) eqn:?
     end;
     cbn -[PyStr.contains PyStr.lower Z.eqb Z.ltb _repo_url_with_token
           OsPath.dirname]);
    intros Hb; try discriminate Hb; injection Hb as <-;
    try match goal with
        | Hnf : PyStr.contains _ (PyStr.lower "Timeout") || _ = true |- _ =>
            vm_compute in Hnf; discriminate Hnf
        end;
    unfold branch_not_found;
    repeat match goal with
           | Heq : _ = _ |- _ => rewrite Heq
           end;
    cbn; intuition congruence.
Qed.

Lemma argv_eqb_refl a : argv_eqb a a = true.
Proof. induction a as [|x a IH]; cbn; [reflexivity|]. now rewrite String.eqb_refl. Qed.

(** The shape shared by [pull], [push] and [pull_before_push]. *)
Lemma refreshed_command local_path repo token args :
  argv_eqb (refresh_argv repo token) ("git" :: args) = false ->
  talks_to_remote local_path repo token ("git" :: args)
    (bind (refresh_remote local_path repo token)
       (fun _ => bind (_run_git local_path args [])
          (fun r => if negb (returncode r =? 0) then ret false else ret true))).
Proof.
  intros Hother s.
  unfold refresh_remote, refreshes, refresh_argv in *.
  destruct repo as [r|]; [destruct (PyStr.truthy r && PyStr.truthy_opt token)|].
  2,3: cbn [bind ret]; unfold bind at 1; cbn [ret];
       unfold _run_git, try_except, bind, subprocess_run, result_of, trace_of,
         ret, git_timeout;
       destruct (sys_spawn ("git" :: args) local_path [] (world s))
         as [[secs rc out err| |] w];
       [destruct (120 <? secs)| |]; cbn -[argv_eqb Z.eqb];
       try change (-1 =? 0) with false; cbn -[argv_eqb Z.eqb];
       try (destruct (rc =? 0) eqn:Hrc; cbn -[argv_eqb Z.eqb]);
       (split; [|eexists; reflexivity]);
       intros b Hb; try discriminate Hb; injection Hb as <-;
       rewrite Exists_existsb; cbn -[Z.eqb Z.ltb argv_eqb];
       rewrite ?argv_eqb_refl, ?Hrc; cbn; intuition congruence.
  unfold _set_remote_url, _run_git, try_except, bind, subprocess_run,
    result_of, trace_of, ret, git_timeout.
  set (url := _repo_url_with_token r token) in *.
  destruct (sys_spawn ["git"; "remote"; "set-url"; "origin"; url] local_path []
              (world s)) as [[secs1 rc1 out1 err1| |] w1];
    [destruct (120 <? secs1)| |]; cbn [fst snd world with_world tick];
    try (split; [intros b Hb; discriminate Hb | eexists; eexists; reflexivity]).
  all: destruct (sys_spawn ("git" :: args) local_path [] _)
         as [[secs rc out err| |] w];
       [destruct (120 <? secs)| |]; cbn -[argv_eqb Z.eqb];
       try change (-1 =? 0) with false; cbn -[argv_eqb Z.eqb];
       try (destruct (rc =? 0) eqn:Hrc; cbn -[argv_eqb Z.eqb]);
       (split; [|eexists; eexists; reflexivity]);
       intros b Hb; try discriminate Hb; injection Hb as <-;
       rewrite Exists_existsb; cbn -[Z.eqb Z.ltb argv_eqb];
       rewrite ?Hother, ?argv_eqb_refl, ?Hrc; cbn; intuition congruence.
Qed.

(** X11.  [pull], [pull_before_push] and [push] answer success exactly
    when their own command ([git pull], [git pull --rebase], [git push
    ...]) ended with return code 0.  When a repository and a token are
    given, the first call is [git remote set-url origin <url with
    token>], in the working copy; what becomes of it (a return code other
    than 0, a timeout) has no part in the answer.  Without them the
    command is the only call. *)
Theorem remote_operations_answer
    (local_path : string) (token repo branch : option string) :
  talks_to_remote local_path repo token ["git"; "pull"]
    (pull local_path token repo) /\
  talks_to_remote local_path repo token ["git"; "pull"; "--rebase"]
    (GitOps.pull_before_push local_path repo token) /\
  talks_to_remote local_path repo token (push_argv branch)
    (push local_path token branch repo).
Proof.
  split; [|split].
  - apply (refreshed_command local_path repo token ["pull"]).
    now destruct repo.
  - apply (refreshed_command local_path repo token ["pull"; "--rebase"]).
    now destruct repo.
  - unfold push, push_argv.
    destruct branch as [b|]; [destruct (PyStr.truthy b)|];
      apply refreshed_command; now destruct repo.
Qed.

End GatewayAnswers.

(** The branch asked for is missing, the default branch is cloned. *)
Lemma clone_answer_witness :
  Exists (fun ev => Observe.clone_ok ev = true)
    (Effects.trace_of
       (GitOps.clone "octo/mirror" "/srv/mirror" None "nope"
          Scenario.no_such_branch)).
Proof.
  refine (proj1 (proj1 (clone_answer "octo/mirror" "/srv/mirror" None "nope"
                          Scenario.no_such_branch true _)) eq_refl).
  reflexivity.
Defined.

Section StripFacts.
Import PyStr.

(** What [lstrip] leaves does not begin with whitespace. *)
Lemma lstrip_head s c r : lstrip s = String c r -> is_space c = false.
Proof.
  induction s as [|d s IH]; cbn [lstrip]; [discriminate|].
  destruct (is_space d) eqn:Hd; [exact IH|]. now intros [= <- _].
Qed.

Lemma lstrip_fixed c r : is_space c = false -> lstrip (String c r) = String c r.
Proof. intros Hc. cbn [lstrip]. now rewrite Hc. Qed.

Lemma rstrip_idempotent s : rstrip (rstrip s) = rstrip s.
Proof.
  induction s as [|c s IH]; [reflexivity|]. cbn [rstrip].
  destruct (rstrip s) as [|d r] eqn:E.
  - destruct (is_space c) eqn:Hc; [reflexivity|]. cbn [rstrip]. now rewrite Hc.
  - cbn [rstrip] in *. now rewrite IH.
Qed.

(** [rstrip] keeps a first character that is no whitespace. *)
Lemma rstrip_head c r :
  is_space c = false -> exists r', rstrip (String c r) = String c r'.
Proof.
  intros Hc. cbn [rstrip]. destruct (rstrip r); [rewrite Hc|]; eauto.
Qed.

Lemma strip_idempotent s : strip (strip s) = strip s.
Proof.
  unfold strip.
  assert (Hl : lstrip (rstrip (lstrip s)) = rstrip (lstrip s)).
  { destruct (lstrip s) as [|c r] eqn:E; [reflexivity|].
    pose proof (lstrip_head s c r E) as Hc.
    destruct (rstrip_head c r Hc) as [r' ->]. now apply lstrip_fixed. }
  now rewrite Hl, rstrip_idempotent.
Qed.

End StripFacts.

Section MoreAnswers.
Import Effects GitOps Observe.
Context {W : Type} `{System W}.

(** X12.  [get_default_branch] answers a name that is not empty and has
    no surrounding whitespace: what [git rev-parse --abbrev-ref HEAD]
    printed when it ended with return code 0 and printed more than
    whitespace, and ["main"] in every other case, a timeout included. *)
Theorem default_branch_name (local_path : string) (s : state W) (name : string) :
  result_of (get_default_branch local_path s) = Ret name ->
  name <> "" /\
  PyStr.strip name = name /\
  (name = "main" \/
   Exists (fun ev =>
             printed ["git"; "rev-parse"; "--abbrev-ref"; "HEAD"] name ev = true)
          (trace_of (get_default_branch local_path s))).
Proof.
  unfold get_default_branch, _run_git, try_except, bind, subprocess_run,
    result_of, trace_of, ret, git_timeout.
  rewrite Exists_existsb.
  destruct (sys_spawn _ local_path [] (world s)) as [[secs rc out err| |] w];
    [destruct (120 <? secs)| |]; cbn -[PyStr.strip Z.eqb argv_eqb];
    try change (-1 =? 0) with false; cbn -[PyStr.strip Z.eqb argv_eqb];
    try (intros [= <-]; repeat split; (discriminate || now left)).
  - destruct (rc =? 0) eqn:Hrc; cbn -[PyStr.strip Z.eqb argv_eqb];
      [|intros [= <-]; repeat split; (discriminate || now left)].
    destruct (PyStr.truthy (PyStr.strip out)) eqn:Hout;
      cbn -[PyStr.strip Z.eqb argv_eqb];
      [|intros [= <-]; repeat split; (discriminate || now left)].
    intros [= <-]. split; [|split].
    + intros Hempty. rewrite Hempty in Hout. discriminate.
    + apply strip_idempotent.
    + right. rewrite argv_eqb_refl, Hrc, String.eqb_refl. reflexivity.
Qed.

(** X13.  [has_changes] answers true exactly when [git status
    --porcelain] ended with return code 0 and printed more than
    whitespace: a status that fails, or that is killed at the timeout,
    reads as a working copy without changes. *)
Theorem has_changes_answer (local_path : string) (s : state W) (b : bool) :
  result_of (has_changes local_path s) = Ret b ->
  (b = true <->
   Exists (fun ev => reported_changes ev = true)
          (trace_of (has_changes local_path s))).
Proof.
  unfold has_changes, _run_git, try_except, bind, subprocess_run,
    result_of, trace_of, ret, git_timeout.
  rewrite Exists_existsb.
  destruct (sys_spawn _ local_path [] (world s)) as [[secs rc out err| |] w];
    [destruct (120 <? secs)| |]; cbn -[PyStr.strip Z.eqb argv_eqb];
    try change (-1 =? 0) with false; cbn -[PyStr.strip Z.eqb argv_eqb];
    try (intros [= <-]; intuition congruence).
  - intros [= <-]. rewrite argv_eqb_refl. cbn [andb orb].
    destruct ((rc =? 0) && PyStr.truthy (PyStr.strip out)); intuition congruence.
Qed.

End MoreAnswers.

(** The branch [trunk] is checked out. *)
Lemma default_branch_name_witness :
  "trunk" <> "" /\
  PyStr.strip "trunk" = "trunk" /\
  ("trunk" = "main" \/
   Exists (fun ev =>
             Observe.printed ["git"; "rev-parse"; "--abbrev-ref"; "HEAD"]
               "trunk" ev = true)
          (Effects.trace_of
             (GitOps.get_default_branch "/srv/mirror" Scenario.on_trunk))).
Proof.
  apply (default_branch_name "/srv/mirror" Scenario.on_trunk "trunk").
  reflexivity.
Defined.

(** A file was edited. *)
Lemma has_changes_answer_witness :
  true = true <->
  Exists (fun ev => Observe.reported_changes ev = true)
    (Effects.trace_of
       (GitOps.has_changes "/srv/mirror" Scenario.rebase_conflict)).
Proof.
  apply (has_changes_answer "/srv/mirror" Scenario.rebase_conflict true).
  reflexivity.
Defined.

(* ================================================================= *)
(** ** The order of the sync sequence *)

(** Proves that the calls of one operation of the gateway are all in a
    class of events, by going through the operation. *)
Ltac never_in_op :=
  match goal with
  | |- Forall ?P (Effects.trace_of (?m ?s)) =>
      let Hal := fresh "Hal" in
      assert (Hal : Effects.always P m);
      [ unfold GitOps.is_git_repo, GitOps.has_changes, GitOps.add_all,
          GitOps.commit, GitOps.pull_before_push, GitOps.refresh_remote,
          GitOps._set_remote_url;
        always_auto; reflexivity
      | apply Hal ]
  end.

Section SyncOrder.
Import Effects GitOps Observe Watcher.
Context {W : Type} `{System W}.

Lemma Forall_refutes {A} (f : A -> bool) (l : list A) :
  Forall (fun x => f x = false) l -> ~ Exists (fun x => f x = true) l.
Proof.
  intros Hall Hex. apply Exists_exists in Hex. destruct Hex as (x & Hin & Hx).
  rewrite Forall_forall in Hall. specialize (Hall x Hin). congruence.
Qed.

Lemma has_changes_true path (s : state W) :
  result_of (has_changes path s) = Ret true ->
  Exists (fun ev => reported_changes ev = true) (trace_of (has_changes path s)).
Proof.
  unfold has_changes, _run_git, try_except, bind, subprocess_run,
    result_of, trace_of, ret, git_timeout.
  rewrite Exists_existsb.
  destruct (sys_spawn _ path [] (world s)) as [[secs rc out err| |] w];
    [destruct (120 <? secs)| |]; cbn -[PyStr.strip Z.eqb argv_eqb];
    try change (-1 =? 0) with false; cbn -[PyStr.strip Z.eqb argv_eqb];
    try discriminate.
  intros [= Hb]. apply andb_prop in Hb. destruct Hb as [Hrc Hout].
  now rewrite argv_eqb_refl, Hrc, Hout.
Qed.

Lemma add_all_true path (s : state W) :
  result_of (add_all path s) = Ret true ->
  Exists (fun ev => ran_ok ["git"; "add"; "-A"] ev = true)
         (trace_of (add_all path s)).
Proof.
  unfold add_all, _run_git, try_except, bind, subprocess_run,
    result_of, trace_of, ret, git_timeout.
  rewrite Exists_existsb.
  destruct (sys_spawn _ path [] (world s)) as [[secs rc out err| |] w];
    [destruct (120 <? secs)| |]; cbn -[Z.eqb argv_eqb];
    try change (-1 =? 0) with false; cbn -[Z.eqb argv_eqb];
    try discriminate.
  destruct (rc =? 0) eqn:Hrc; cbn -[Z.eqb]; rewrite ?Hrc;
    intros Hres; try discriminate Hres; reflexivity.
Qed.

Lemma commit_true path message name email (s : state W) :
  result_of (commit path message name email s) = Ret true ->
  Exists (fun ev => commit_accepted ev = true)
         (trace_of (commit path message name email s)).
Proof.
  unfold commit, _run_git, try_except, bind, subprocess_run,
    result_of, trace_of, ret, git_timeout.
  rewrite Exists_existsb.
  destruct (sys_spawn _ path _ (world s)) as [[secs rc out err| |] w];
    [destruct (120 <? secs)| |]; cbn -[Z.eqb PyStr.contains];
    try change (-1 =? 0) with false; cbn -[Z.eqb PyStr.contains];
    try discriminate.
  destruct (rc =? 0) eqn:Hrc;
    destruct (PyStr.contains "nothing to commit" err) eqn:Herr;
    cbn -[Z.eqb PyStr.contains]; rewrite ?Hrc, ?Herr;
    intros Hres; try discriminate Hres; reflexivity.
Qed.

End SyncOrder.

(** The antecedent of a goal speaks of a call that no part of the trace
    holds. *)
Ltac refute_runs :=
  let Hex := fresh "Hex" in
  intros Hex; exfalso; revert Hex; apply Forall_refutes;
  repeat (apply Forall_app; split);
  first [ constructor; fail | never_in_op ].

Section SyncOrderTheorem.
Import Effects GitOps Observe Watcher.
Context {W : Type} `{System W}.

(** X14.  The steps of a sync sequence come in a fixed order, each one
    only after the one before has succeeded: nothing is staged unless
    [git status] reported changes, nothing is committed unless [git add]
    ended with return code 0, and nothing is pushed unless the commit was
    taken for done. *)
Theorem sync_steps_in_order (self : config) (path : string) (s : state W) :
  let tr := trace_of (_do_commit_and_push self path s) in
  (Exists (fun ev => runs "add" ev = true) tr ->
   Exists (fun ev => reported_changes ev = true) tr) /\
  (Exists (fun ev => runs "commit" ev = true) tr ->
   Exists (fun ev => ran_ok ["git"; "add"; "-A"] ev = true) tr) /\
  (Exists (fun ev => runs "push" ev = true) tr ->
   Exists (fun ev => commit_accepted ev = true) tr).
Proof.
  intros tr. subst tr. unfold _do_commit_and_push.
  rewrite trace_bind.
  destruct (is_git_repo_pure path s) as (-> & b & -> & _).
  destruct b; cbn [negb]; [|repeat split; refute_runs].
  rewrite trace_bind.
  destruct (result_of (has_changes path s)) as [[|]|e] eqn:Hhc; cbn [negb];
    [|repeat split; refute_runs..].
  assert (Hin_hc : forall rest,
             Exists (fun ev => reported_changes ev = true)
               (trace_of (is_git_repo path s)
                  ++ trace_of (has_changes path s) ++ rest)%list).
  { intros rest. apply Exists_app. right. apply Exists_app. left.
    now apply has_changes_true. }
  set (s1 := state_of (has_changes path s)).
  rewrite trace_bind.
  match goal with
  | |- context [result_of (?m s1)] =>
      destruct (result_of (m s1)) as [[|]|e] eqn:Hpbp; cbn [negb];
      [set (s2 := state_of (m s1))|repeat split; refute_runs..]
  end.
  rewrite trace_bind.
  destruct (result_of (add_all path s2)) as [[|]|e] eqn:Hadd; cbn [negb];
    [|repeat split; (intros _; apply Hin_hc) || refute_runs..].
  assert (Hin_add : forall pre0 pre1 pre2 rest,
             Exists (fun ev => ran_ok ["git"; "add"; "-A"] ev = true)
               (pre0 ++ pre1 ++ pre2 ++ trace_of (add_all path s2) ++ rest)%list).
  { intros pre0 pre1 pre2 rest. do 3 (apply Exists_app; right).
    apply Exists_app. left. now apply add_all_true. }
  set (s3 := state_of (add_all path s2)).
  rewrite trace_bind.
  match goal with
  | |- context [result_of (?m s3)] =>
      destruct (result_of (m s3)) as [[|]|e] eqn:Hcommit; cbn [negb];
      [|repeat split;
        first [ intros _; apply Hin_hc | intros _; apply Hin_add
              | refute_runs ]..]
  end.
  repeat split; intros _; [apply Hin_hc | apply Hin_add |].
  do 4 (apply Exists_app; right). apply Exists_app. left.
  now apply commit_true.
Qed.

End SyncOrderTheorem.

(** An edit that goes all the way to the remote. *)
Lemma sync_steps_in_order_witness :
  Exists (fun ev => Observe.commit_accepted ev = true)
    (Effects.trace_of
       (Watcher._do_commit_and_push Scenario.handler_config "/srv/mirror"
          Scenario.local_edit)).
Proof.
  apply (proj2 (proj2 (sync_steps_in_order Scenario.handler_config
                         "/srv/mirror" Scenario.local_edit))).
  vm_compute. do 5 apply Exists_cons_tl. apply Exists_cons_hd. reflexivity.
Defined.

(* ================================================================= *)
(** ** The calls of the watcher and of the detector *)

Section CallFacts.
Import Effects GitOps Observe.
Context {W : Type} `{System W}.

Lemma always_requests_get P url headers t :
  (forall r, P (EvGet url headers t r)) -> always P (requests_get url headers t).
Proof.
  intros HP s. unfold requests_get, trace_of.
  destruct (sys_http_get url headers (world s)). cbn. repeat constructor; apply HP.
Qed.

Lemma always_time_sleep P secs :
  P (EvSleep secs) -> always P (time_sleep secs : M W unit).
Proof.
  intros HP s. unfold time_sleep, trace_of.
  destruct (secs <? 0); cbn; repeat constructor; exact HP.
Qed.

(** X15.  The calls of a sync sequence stay within the mirrored
    directory: apart from the look at [path/.git] they are [git] commands
    that run in [path] with the timeout of 120.  The sequence never
    clones, pulls only when pull-before-push is switched on, and commits
    with the message ["GitSync: auto sync"] and with the author name and
    e-mail of the configuration, and nothing else, in the environment. *)
Theorem sync_calls (self : Watcher.config) (path : string) (s : state W) :
  Forall (sync_call self path)
         (trace_of (Watcher._do_commit_and_push self path s)).
Proof.
  revert s. change (always (sync_call self path)
                      (Watcher._do_commit_and_push self path)).
  unfold Watcher._do_commit_and_push, is_git_repo, has_changes, add_all, commit,
    push, GitOps.pull_before_push, refresh_remote, _set_remote_url.
  destruct (Watcher.pull_before_push self) eqn:Hcfg;
    destruct (Watcher.branch self) as [b|]; [destruct (PyStr.truthy b)| |
                                              destruct (PyStr.truthy b)|];
    always_auto;
    try reflexivity;
    try (cbn; repeat split; (reflexivity || assumption || (intros; assumption)
                             || discriminate)).
Qed.

(** X16.  A pass of the detector asks the remote once, with a timeout
    of 10, looks at [local_path/.git], and then at most clones (from the
    directory of the process, after [os.makedirs] on the parent of
    [local_path]) or refreshes the remote and pulls (in [local_path]).  It
    never stages, commits or pushes, and it sleeps only for the poll
    interval. *)
Theorem detector_calls
    (repo local_path : string) (token : option string) (branch : string)
    (interval_seconds : Z) (owner repo_name : string)
    (last : option string) (s : state W) :
  Forall (detector_call local_path token branch interval_seconds owner repo_name)
         (trace_of (Poller.poll_once repo local_path token branch
                      interval_seconds None owner repo_name last s)).
Proof.
  revert s.
  change (always (detector_call local_path token branch interval_seconds
                    owner repo_name)
            (Poller.poll_once repo local_path token branch interval_seconds
               None owner repo_name last)).
  unfold Poller.poll_once, Poller.fetch_latest_sha, Poller.adopt,
    is_git_repo, clone, pull, refresh_remote, _set_remote_url.
  repeat first
    [ apply always__run_git; intro
    | apply always_try_except
    | apply always_requests_get; intro
    | apply always_time_sleep
    | apply always_raise
    | always_step ];
    try reflexivity;
    try (cbn; repeat split; reflexivity).
Qed.

End CallFacts.

(* ================================================================= *)
(** ** The debounce timer, for every stream of events *)

Section DebounceInGeneral.
Import Watcher.
Variable self : config.

Let window := debounce_seconds self.

Lemma timer_run_old old pending log i :
  all_finished old -> (i < List.length old)%nat ->
  timer_run i (resting self old pending log) = resting self old pending log.
Proof.
  intros Hold Hi. unfold timer_run.
  assert (Hnth : nth_error (timers (resting self old pending log)) i
                 = nth_error old i).
  { destruct pending; cbn [resting timers]; [|reflexivity].
    now apply nth_error_app1. }
  rewrite Hnth.
  destruct (nth_error old i) as [tm|] eqn:E; [|reflexivity].
  apply nth_error_In in E. unfold all_finished in Hold.
  rewrite Forall_forall in Hold. now rewrite (Hold tm E).
Qed.

Lemma fold_old (f : handler -> nat -> handler) old pending log n :
  (n <= List.length old)%nat ->
  (forall i, (i < List.length old)%nat ->
             f (resting self old pending log) i = resting self old pending log) ->
  fold_left f (seq 0 n) (resting self old pending log)
  = resting self old pending log.
Proof.
  intros Hn Hf. apply fold_left_fixed. intros i Hi. apply in_seq in Hi.
  apply Hf. lia.
Qed.

(** The only timer that can fire is the one that is pending. *)
Lemma timer_run_waiting old since log :
  timer_run (List.length old) (resting self old (Some since) log)
  = resting self (old ++ [Timer since window true]) None
      (log ++ [since + Z.max 0 window]).
Proof.
  unfold timer_run. cbn [resting timers].
  rewrite nth_error_app2, Nat.sub_diag by apply Nat.le_refl.
  cbn [nth_error finished _on_timer timers _timer fired].
  rewrite set_finished_last. reflexivity.
Qed.

Lemma expire_resting old pending log now :
  all_finished old ->
  expire now (resting self old pending log) =
  match pending with
  | Some since =>
      if since + Z.max 0 window <=? now
      then resting self (old ++ [Timer since window true]) None
             (log ++ [since + Z.max 0 window])
      else resting self old pending log
  | None => resting self old None log
  end.
Proof.
  intros Hold. unfold expire. destruct pending as [since|].
  - cbn [resting timers]. rewrite length_app. cbn [List.length].
    rewrite seq_app, fold_left_app. cbn [seq fold_left Nat.add].
    change {| _timer := Some (List.length old);
              timers := old ++ [Timer since (debounce_seconds self) false];
              fired := log |}
      with (resting self old (Some since) log).
    rewrite fold_old; [|lia|].
    + unfold is_due. cbn [resting timers].
      rewrite nth_error_app2, Nat.sub_diag by apply Nat.le_refl.
      cbn [nth_error]. unfold due_time. cbn [started interval]. fold window.
      destruct (since + Z.max 0 window <=? now); [|reflexivity].
      apply timer_run_waiting.
    + intros i Hi.
      destruct (is_due now (resting self old (Some since) log) i);
        [|reflexivity].
      now apply timer_run_old.
  - cbn [resting timers]. apply (fold_old _ old None log); [lia|].
    intros i Hi. destruct (is_due now (resting self old None log) i);
      [|reflexivity].
    now apply (timer_run_old old None log).
Qed.

Lemma quiesce_resting old pending log :
  all_finished old ->
  fired (quiesce (resting self old pending log)) =
  (log ++ match pending with
          | Some since => [since + Z.max 0 window]
          | None => []
          end)%list.
Proof.
  intros Hold. unfold quiesce. destruct pending as [since|].
  - cbn [resting timers]. rewrite length_app. cbn [List.length].
    rewrite seq_app, fold_left_app. cbn [seq fold_left Nat.add].
    change {| _timer := Some (List.length old);
              timers := old ++ [Timer since (debounce_seconds self) false];
              fired := log |}
      with (resting self old (Some since) log).
    rewrite fold_old; [|lia|].
    + now rewrite timer_run_waiting.
    + intros i Hi. now apply timer_run_old.
  - cbn [resting timers].
    rewrite (fold_old _ old None log); [|lia|].
    + cbn. now rewrite app_nil_r.
    + intros i Hi. now apply (timer_run_old old None log).
Qed.

Lemma reset_resting old pending log now :
  exists old',
    (all_finished old -> all_finished old') /\
    _reset_timer self now (resting self old pending log)
    = resting self old' (Some now) log.
Proof.
  destruct pending as [since|].
  - exists (old ++ [Timer since window true])%list. split.
    + intros Hold. apply Forall_app. split; [assumption|]. repeat constructor.
    + unfold _reset_timer. cbn [resting _timer timers fired cancel].
      rewrite set_finished_last. reflexivity.
  - exists old. split; [trivial | reflexivity].
Qed.

Lemma dispatch_resting old pending log now ev :
  exists old',
    (all_finished old -> all_finished old') /\
    dispatch self now ev (resting self old pending log)
    = resting self old' (if qualifies ev then Some now else pending) log.
Proof.
  rewrite dispatch_qualifies. destruct (qualifies ev).
  - apply reset_resting.
  - exists old. split; [trivial | reflexivity].
Qed.

(** The handler goes from resting state to resting state, and its log
    grows as [settle] tells. *)
Lemma deliver_settles evs : forall old pending log,
  all_finished old ->
  exists old' pending' log',
    all_finished old' /\
    deliver self evs (resting self old pending log)
    = resting self old' pending' log' /\
    fired (quiesce (resting self old' pending' log'))
    = (log ++ settle window pending evs)%list.
Proof.
  induction evs as [|[now ev] evs IH]; intros old pending log Hold.
  - exists old, pending, log. split; [assumption|]. split; [reflexivity|].
    now apply quiesce_resting.
  - cbn [deliver settle]. rewrite expire_resting by assumption.
    destruct pending as [since|].
    + fold window. destruct (since + Z.max 0 window <=? now).
      * destruct (dispatch_resting (old ++ [Timer since window true])%list None
                    (log ++ [since + Z.max 0 window])%list now ev)
          as (old1 & Hold1 & ->).
        destruct (IH old1 (if qualifies ev then Some now else None)
                    (log ++ [since + Z.max 0 window])%list)
          as (o & p & l & Ho & Hd & Hf).
        { apply Hold1. apply Forall_app. split; [assumption|]. repeat constructor. }
        exists o, p, l. split; [assumption|]. split; [assumption|].
        rewrite Hf, <- app_assoc. reflexivity.
      * destruct (dispatch_resting old (Some since) log now ev)
          as (old1 & Hold1 & ->).
        destruct (IH old1 (if qualifies ev then Some now else Some since) log
                    (Hold1 Hold)) as (o & p & l & Ho & Hd & Hf).
        exists o, p, l. auto.
    + destruct (dispatch_resting old None log now ev) as (old1 & Hold1 & ->).
      destruct (IH old1 (if qualifies ev then Some now else None) log
                  (Hold1 Hold)) as (o & p & l & Ho & Hd & Hf).
      exists o, p, l. auto.
Qed.

Lemma syncs_settle evs : syncs self evs = settle window None evs.
Proof.
  unfold syncs. change new_handler with (resting self [] None []).
  destruct (deliver_settles evs [] None []) as (o & p & l & Ho & -> & ->);
    [constructor|]. reflexivity.
Qed.

Lemma settle_length evs : forall pending,
  (List.length (settle window pending evs)
   <= match pending with Some _ => 1 | None => 0 end + qualifying evs)%nat.
Proof.
  induction evs as [|[now ev] evs IH]; intros pending.
  - destruct pending; cbn; lia.
  - unfold qualifying in *. cbn [settle filter snd].
    destruct pending as [since|];
      [destruct (since + Z.max 0 window <=? now)|];
      destruct (qualifies ev); cbn [List.length];
      match goal with
      | |- context [settle window ?p evs] => specialize (IH p)
      end; cbn in IH; lia.
Qed.



(** X18.  No sync without a cause: the handler starts at most one sync
    per qualifying event, and none when no event qualifies (events in
    [.git], modified directories, files opened or closed). *)
Theorem syncs_bounded_by_qualifying_events (evs : list (Z * fs_event)) :
  (List.length (syncs self evs) <= qualifying evs)%nat.
Proof. rewrite syncs_settle. apply (settle_length evs None). Qed.


End DebounceInGeneral.

(* ================================================================= *)
(** ** More on the passes of the detector *)

Section PassFacts.
Import Effects Observe Poller.
Context {W : Type} `{System W}.

Variables (repo local_path : string) (token : option string) (branch : string).
Variables (interval_seconds : Z) (owner repo_name : string).

Let url := commits_url owner repo_name branch.
Let headers := query_headers token.
Let git_dir := OsPath.join local_path ".git".
Let pass := poll_once repo local_path token branch interval_seconds None
              owner repo_name.
Let loop fuel := poll_while fuel repo local_path token branch interval_seconds
                   None owner repo_name.

(** X20.  A pass that gets no revision changes nothing.  When the request
    fails, or the reply has no ["sha"] field, the pass calls neither the
    file system nor [git], keeps the last-seen revision, sleeps for the
    interval and goes on with the next pass; when reading the reply
    raises another exception, the pass ends there, the last-seen revision
    kept as well. *)
Theorem pass_without_revision
    (reply : http_reply) (last : option string) (s : state W) w :
  sys_http_get url headers (world s) = (reply, w) ->
  0 <= interval_seconds ->
  (reply = HttpRequestError \/ reply = HttpJson None ->
   pass last s =
   (Ret (Continue, last), tick interval_seconds (with_world w s),
    [EvGet url headers 10 reply; EvSleep interval_seconds])) /\
  (reply = HttpOtherError ->
   pass last s =
   (Ret (Fallthrough, last), with_world w s, [EvGet url headers 10 reply])).
Proof.
  intros Hget Hpos.
  assert (Hfetch := fetch_latest_sha_eq token branch owner repo_name s).
  fold url in Hfetch. fold headers in Hfetch. rewrite Hget in Hfetch.
  cbn [fst snd] in Hfetch.
  split.
  - intros Hreply. unfold pass, poll_once, try_except, bind.
    rewrite Hfetch. unfold time_sleep.
    destruct (Z.ltb_spec interval_seconds 0); [lia|].
    destruct Hreply as [-> | ->]; reflexivity.
  - intros ->. unfold pass, poll_once, try_except, bind.
    rewrite Hfetch. reflexivity.
Qed.

(** X21.  Without a working copy the pass is a clone, whatever the
    last-seen revision: a working copy that has gone is cloned again.
    The revision fetched becomes the last-seen one when [clone] answers
    success; otherwise the last-seen revision stays, and the next pass
    tries again. *)
Theorem missing_copy_is_cloned
    (sha : string) (last : option string) (s : state W) w :
  sys_http_get url headers (world s) = (HttpJson (Some sha), w) ->
  sys_isdir git_dir w = false ->
  let call := GitOps.clone repo local_path token branch (with_world w s) in
  pass last s =
  (Ret (Fallthrough, seen_after (result_of call) sha last),
   state_of call,
   [EvGet url headers 10 (HttpJson (Some sha)); EvIsdir git_dir false]
     ++ trace_of call)%list.
Proof. apply pass_clones. Qed.

(** X22.  After a pass that reaches the end of its [try] statement, the
    loop waits on the stop event: when the event is set before the
    interval is over, or was set during the pass, the loop ends at that
    moment, with the revision that the pass left. *)
Theorem stop_ends_the_wait
    (fuel : nat) (last last' : option string) (s s1 : state W) t1 (stop : Z) :
  is_set_at s = false ->
  pass last s = (Ret (Fallthrough, last'), s1, t1) ->
  stop_at s1 = Some stop ->
  stop <= clock s1 + Z.max 0 interval_seconds ->
  loop (S (S fuel)) last s =
  (Ret (Stopped last'),
   {| world := world s1; clock := Z.max (clock s1) stop; stop_at := Some stop |},
   (t1 ++ [EvWait interval_seconds])%list).
Proof.
  intros Hset Hpass Hstop Hwhen. unfold loop.
  rewrite (poll_while_fallthrough repo local_path token branch interval_seconds
             None owner repo_name (S fuel) last last' s s1 t1 Hset Hpass).
  cbv zeta.
  assert (Hwait : state_of (stop_wait interval_seconds s1)
                  = {| world := world s1; clock := Z.max (clock s1) stop;
                       stop_at := Some stop |}).
  { unfold stop_wait, state_of. cbn [fst snd]. rewrite Hstop. f_equal. lia. }
  rewrite Hwait.
  rewrite (poll_while_stopped repo local_path token branch interval_seconds
             None owner repo_name fuel last').
  - reflexivity.
  - unfold is_set_at. cbn [stop_at clock].
    destruct (Z.leb_spec stop (Z.max (clock s1) stop)); [reflexivity | lia].
Qed.

End PassFacts.

(** The remote cannot be reached. *)
Lemma pass_without_revision_witness :
  Effects.result_of
    (Poller.poll_once "octo/mirror" "/srv/mirror" None "main" 60 None
       "octo" "mirror" (Some "a1b2c3") Scenario.remote_down_stop_at_1)
  = Effects.Ret (Poller.Continue, Some "a1b2c3").
Proof.
  refine (f_equal Effects.result_of
            (proj1 (pass_without_revision "octo/mirror" "/srv/mirror" None
                      "main" 60 "octo" "mirror" Effects.HttpRequestError
                      (Some "a1b2c3") Scenario.remote_down_stop_at_1
                      (Sim.Sim ["/srv/mirror/.git"] [] Sim.git_ok) _ _)
               _)).
  - reflexivity.
  - lia.
  - now left.
Defined.

(** The first pass of a detector that starts without a working copy. *)
Lemma missing_copy_is_cloned_witness :
  Effects.result_of
    (Poller.poll_once "octo/mirror" "/srv/mirror" None "main" 60 None
       "octo" "mirror" None (Scenario.revisions "a1b2c3" "d4e5f6"))
  = Effects.Ret (Poller.Fallthrough, Some "a1b2c3").
Proof.
  refine (f_equal Effects.result_of
            (missing_copy_is_cloned "octo/mirror" "/srv/mirror" None "main" 60
               "octo" "mirror" "a1b2c3" None
               (Scenario.revisions "a1b2c3" "d4e5f6")
               (Sim.Sim []
                  [Effects.HttpJson (Some "a1b2c3"); Effects.HttpJson (Some "d4e5f6");
                   Effects.HttpJson (Some "d4e5f6"); Effects.HttpJson (Some "a1b2c3")]
                  Sim.git_ok)
               _ _));
    reflexivity.
Defined.

(** The stop event is set while the detector waits for its next pass. *)
Lemma stop_ends_the_wait_witness :
  Effects.result_of
    (Poller.poll_while 2 "octo/mirror" "/srv/mirror" None "main" 60 None
       "octo" "mirror" None Scenario.remote_up_stop_at_1)
  = Effects.Ret (Poller.Stopped (Some "a1b2c3")).
Proof.
  erewrite (stop_ends_the_wait "octo/mirror" "/srv/mirror" None "main" 60
              "octo" "mirror" 0 None (Some "a1b2c3")
              Scenario.remote_up_stop_at_1 _ _ 1).
  - reflexivity.
  - reflexivity.
  - reflexivity.
  - reflexivity.
  - cbn. lia.
Defined.

(* ================================================================= *)
(** ** The loop of the watcher: [watch_loop] *)

Section WatchLoopFacts.
Import WatchLoop.
Variable exists_at : Z -> bool.

Lemma await_path_S stop_at n now :
  await_path exists_at stop_at (S n) now =
  if negb (exists_at now) && negb (is_set stop_at now)
  then await_path exists_at stop_at n (wait stop_at 5 now)
  else Some now.
Proof. reflexivity. Qed.


Lemma await_path_stopped stop f : forall now,
  (forall t, now <= t <= Z.max now stop -> exists_at t = false) ->
  stop - now <= 5 * Z.of_nat f ->
  await_path exists_at (Some stop) (S f) now = Some (Z.max now stop).
Proof.
  induction f as [|f IH]; intros now Hnone Hfuel.
  - cbn [await_path]. rewrite (Hnone now) by lia. unfold is_set.
    destruct (Z.leb_spec stop now); [|lia]. cbn. f_equal. lia.
  - rewrite await_path_S.
    rewrite (Hnone now) by lia. unfold is_set at 1.
    destruct (Z.leb_spec stop now); cbn [negb andb]; [f_equal; lia|].
    unfold wait. rewrite IH.
    + f_equal. lia.
    + intros t Ht. apply Hnone. lia.
    + lia.
Qed.



(** X23.  When the stop event is set before the mirrored directory
    exists, [watch_loop] returns at that moment, without having started
    an observer. *)
Theorem stopped_before_directory_exists
    (stop : Z) (f : nat) (local_path : string) (now : Z) :
  (forall t, now <= t <= Z.max now stop -> exists_at t = false) ->
  stop - now <= 5 * Z.of_nat f ->
  watch_loop exists_at (Some stop) (S f) local_path now
  = Some (NotWatched (Z.max now stop)).
Proof.
  intros Hnone Hfuel. unfold watch_loop.
  rewrite await_path_stopped by assumption.
  rewrite (Hnone (Z.max now stop)) by lia. reflexivity.
Qed.


(** X25.  Without the stop event, [watch_loop] does not return, however
    many turns its loops are given: it goes on waiting for the directory,
    or, once the observer runs, for the stop event. *)
Theorem watcher_runs_until_stopped
    (fuel : nat) (local_path : string) (now : Z) :
  watch_loop exists_at None fuel local_path now = None.
Proof.
  unfold watch_loop.
  assert (Hstop : forall n t, await_stop None n t = None).
  { induction n as [|n IH]; intros t; [reflexivity|]. cbn. apply IH. }
  assert (Hpath : forall n t t',
             await_path exists_at None n t = Some t' -> exists_at t' = true).
  { induction n as [|n IH]; intros t t'; [discriminate|]. cbn [await_path].
    unfold is_set. destruct (exists_at t) eqn:E; cbn [negb andb].
    - now intros [= <-].
    - apply IH. }
  destruct (await_path exists_at None fuel now) as [t|] eqn:E; [|reflexivity].
  rewrite (Hpath _ _ _ E). cbn [negb]. now rewrite Hstop.
Qed.

End WatchLoopFacts.

(** The stop event is set twelve seconds after the start, in a directory
    that the detector never gets to clone. *)
Lemma stopped_before_directory_exists_witness :
  WatchLoop.watch_loop (fun _ => false) (Some 12) 4 "/srv/mirror" 0
  = Some (WatchLoop.NotWatched 12).
Proof.
  apply (stopped_before_directory_exists (fun _ => false) 12 3 "/srv/mirror" 0).
  - reflexivity.
  - lia.
Defined.


(* ================================================================= *)
(** ** Which events the handler discards *)

Section DiscardedPaths.
Import PyStr PathLib Watcher.

Lemma mem_kept l : mem ".git" (filter keep_part l) = mem ".git" l.
Proof.
  unfold mem. induction l as [|x l IH]; [reflexivity|].
  cbn [filter existsb]. destruct (keep_part x) eqn:Hx.
  - cbn [existsb]. now rewrite IH.
  - rewrite IH. unfold keep_part in Hx.
    destruct x as [|c x]; [reflexivity|]. cbn [truthy andb] in Hx.
    apply negb_false_iff, String.eqb_eq in Hx. now rewrite Hx.
Qed.

Lemma root_is_not_git p : String.eqb ".git" (fst (splitroot p)) = false.
Proof.
  unfold splitroot.
  destruct p as [|c1 p1]; [reflexivity|]. cbn [starts_with_slash].
  destruct (Ascii.eqb_spec c1 OsPath.slash) as [->|]; [|reflexivity].
  cbn [negb drop].
  destruct p1 as [|c2 p2]; [reflexivity|]. cbn [starts_with_slash].
  destruct (Ascii.eqb_spec c2 OsPath.slash) as [->|]; [|reflexivity].
  cbn [negb orb]. now destruct (starts_with_slash p2).
Qed.

Lemma git_part_is_git_piece p :
  mem ".git" (parts p) = mem ".git" (split OsPath.slash p).
Proof.
  transitivity (mem ".git" (filter keep_part (split OsPath.slash (snd (splitroot p))))).
  - unfold parts. rewrite (surjective_pairing (splitroot p)). cbn [fst snd].
    destruct (truthy (fst (splitroot p))); [|reflexivity].
    unfold mem. cbn [existsb]. now rewrite root_is_not_git.
  - rewrite kept_parts_of_rest. apply mem_kept.
Qed.

(** X26.  The handler discards exactly the events whose path has a piece
    named [.git] between two slashes (or at an end of the path), wherever
    it stands: the metadata of the watched repository and of any
    repository below it, but not [.gitignore] or [.github].  Every other
    event of a type the handler listens to resets the timer. *)
Theorem discarded_paths (self : config) (now : Z) (ev : fs_event) (h : handler) :
  _on_event self now ev h =
  if mem ".git" (split OsPath.slash (src_path ev)) then h
  else _reset_timer self now h.
Proof.
  unfold _on_event.
  assert (Hsrc : (if truthy (src_path ev) then src_path ev else "")
                 = src_path ev) by now destruct (src_path ev).
  now rewrite Hsrc, git_part_is_git_piece.
Qed.

End DiscardedPaths.

(* ================================================================= *)
(** ** The revision the detector remembers *)

Section LastSeen.
Import Effects GitOps Observe Poller.
Context {W : Type} `{System W}.

Variables (repo local_path : string) (token : option string) (branch : string).
Variables (interval_seconds : Z) (on_pull : option (M W unit)).

Lemma adopt_result sha (s : state W) how last' :
  result_of (adopt sha on_pull s) = Ret (how, last') -> last' = Some sha.
Proof.
  unfold adopt. destruct on_pull as [callback|].
  - unfold try_except, bind, result_of. destruct (callback s) as [[r s1] t1].
    destruct r; cbn; now intros [= _ <-].
  - cbn. now intros [= _ <-].
Qed.

Lemma after_answer_result sha last (gate : M W bool) (s : state W) how last' :
  result_of ((ok <- gate ;;
              if ok then adopt sha on_pull
              else ret (Fallthrough, last))%py s) = Ret (how, last') ->
  last' = last \/ last' = Some sha.
Proof.
  rewrite result_bind. destruct (result_of (gate s)) as [[|]|e].
  - intros Had. right. exact (adopt_result _ _ _ _ Had).
  - cbn. intros [= _ <-]. now left.
  - discriminate.
Qed.

Lemma pass_last_seen owner repo_name last (s : state W) how last' :
  let run := poll_once repo local_path token branch interval_seconds on_pull
               owner repo_name last s in
  result_of run = Ret (how, last') ->
  last' = last \/
  exists sha, last' = Some sha /\
              Exists (fun ev => reported sha ev = true) (trace_of run).
Proof.
  cbn zeta. unfold poll_once.
  match goal with
  | |- context [try_except ?m _ _] => set (body := m)
  end.
  assert (Hbody : forall how last',
            result_of (body s) = Ret (how, last') ->
            last' = last \/
            exists sha, last' = Some sha /\
                        Exists (fun ev => reported sha ev = true)
                               (trace_of (body s))).
  { clear how last'. intros how last'. subst body.
    rewrite result_bind, trace_bind, fetch_latest_sha_eq.
    cbn [result_of state_of trace_of fst snd].
    destruct (fst (sys_http_get _ _ (world s))) as [[sha|]| |];
      try discriminate.
    2, 3: rewrite result_bind;
      destruct (result_of (time_sleep interval_seconds _)); try discriminate;
      cbn; intros [= _ <-]; now left.
    intros Hres.
    assert (Hcases : last' = last \/ last' = Some sha).
    { revert Hres. rewrite result_bind.
      destruct (result_of (is_git_repo local_path _)) as [[|]|e];
        cbn [negb]; try discriminate.
      - destruct last as [l|].
        + destruct (negb (String.eqb sha l)).
          * apply after_answer_result.
          * cbn. intros [= _ <-]. now left.
        + cbn. intros [= _ <-]. now right.
      - apply after_answer_result. }
    destruct Hcases as [->| ->]; [now left|].
    right. exists sha. split; [reflexivity|].
    apply Exists_cons_hd. cbn. apply String.eqb_refl. }
  unfold try_except, result_of, trace_of in *.
  destruct (body s) as [[r s1] t1]. cbn [fst snd] in *.
  destruct r as [[how0 last0]|e]; cbn [catch_all fst snd].
  - apply Hbody.
  - cbn. intros [= _ <-]. now left.
Qed.

Lemma poll_while_last_seen owner repo_name fuel : forall last (s : state W) sha,
  let run := poll_while fuel repo local_path token branch interval_seconds
               on_pull owner repo_name last s in
  last_seen (result_of run) = Some sha ->
  last = Some sha \/
  Exists (fun ev => reported sha ev = true) (trace_of run).
Proof.
  induction fuel as [|fuel IH]; intros last s sha; cbn zeta.
  - cbn. now left.
  - cbn [poll_while]. rewrite result_bind, trace_bind.
    cbn [stop_is_set result_of state_of trace_of fst snd app].
    destruct (is_set_at s); [cbn; now left|].
    rewrite result_bind, trace_bind.
    pose proof (pass_last_seen owner repo_name last s) as Hpass.
    cbn zeta in Hpass.
    destruct (result_of (poll_once _ _ _ _ _ _ _ _ last s))
      as [[how last']|e] eqn:Hres; [|discriminate].
    specialize (Hpass how last' eq_refl).
    intros Hend.
    assert (Hrest : last' = Some sha \/
              Exists (fun ev => reported sha ev = true)
                (trace_of (match how with
                           | Continue =>
                               poll_while fuel repo local_path token branch
                                 interval_seconds on_pull owner repo_name last'
                           | Fallthrough =>
                               (stop_wait interval_seconds ;;
                                poll_while fuel repo local_path token branch
                                  interval_seconds on_pull owner repo_name
                                  last')%py
                           end (state_of (poll_once repo local_path token branch
                                  interval_seconds on_pull owner repo_name
                                  last s))))).
    { destruct how.
      - apply IH. exact Hend.
      - revert Hend. rewrite result_bind, trace_bind.
        cbn [stop_wait result_of state_of trace_of fst snd].
        intros Hend. apply IH in Hend.
        destruct Hend as [Hend|Hend]; [now left|right].
        apply Exists_app. now right. }
    destruct Hrest as [->|Hrest].
    + destruct Hpass as [<-|(sha' & [= <-] & Hseen)]; [now left|right].
      apply Exists_app. now left.
    + right. apply Exists_app. now right.
Qed.

(** X27.  The revision the detector remembers is one the remote reported:
    whenever a run of the detector ends, or is interrupted, with a
    last-seen revision, the remote answered one of the queries of that
    run with that revision.  Neither [git] nor the callback can put
    another value there. *)
Theorem last_seen_was_reported (fuel : nat) (s : state W) (sha : string) :
  let run := poll_loop fuel repo local_path token branch interval_seconds
               on_pull s in
  last_seen (result_of run) = Some sha ->
  Exists (fun ev => reported sha ev = true) (trace_of run).
Proof.
  cbn zeta. unfold poll_loop.
  destruct (OsPath.has_slash (_normalize_repo repo)); cbn [negb];
    [|discriminate].
  destruct (split_once (_normalize_repo repo)) as [o r].
  intros Hend. apply poll_while_last_seen in Hend.
  destruct Hend as [Hend|Hend]; [discriminate|exact Hend].
Qed.

End LastSeen.

(** A working copy in place and a remote at ["a1b2c3"]: the detector,
    stopped after a second, remembers ["a1b2c3"]. *)
Lemma last_seen_was_reported_witness :
  Exists (fun ev => Observe.reported "a1b2c3" ev = true)
    (Effects.trace_of
       (Poller.poll_loop 3 "octo/mirror" "/srv/mirror" None "main" 60 None
          Scenario.remote_up_stop_at_1)).
Proof.
  apply (last_seen_was_reported "octo/mirror" "/srv/mirror" None "main" 60 None
           3 Scenario.remote_up_stop_at_1 "a1b2c3").
  vm_compute. reflexivity.
Defined.
